(** * CTU CAN FD IP core: the register map of [driver/ctu_can_fd_regs.h]

    The header is a generated data dictionary: one enumeration binding
    register names to byte offsets, one union per 32-bit register word
    (a raw [uint32_t u32] next to a bitfield structure [s], the latter
    written twice, once per bitfield allocation order), and enumerations
    naming the values of selected fields.

    The development transcribes these tables, gives the bitfield
    structures their meaning as positions inside a 32-bit word, and
    proves the structural properties of the map.

    Bit positions follow the convention the guard macro stands for: where
    [__LITTLE_ENDIAN_BITFIELD] is defined the compiler allocates the first
    member of a structure at bit 0 and goes upwards; otherwise it allocates
    the first member at bit 31 and goes downwards. *)

From Stdlib Require Import ZArith List String Ascii Bool Lia DecimalString.
Import ListNotations.

Local Open Scope string_scope.
Local Open Scope list_scope.
Local Open Scope Z_scope.

(** ** Declarations of the header *)

(** A bitfield member [uint32_t name : width;]. *)
Record bitfield : Set := BF { bf_name : string; bf_width : Z }.

(** The members of one [struct ..._s].  The header precedes each run of
    members by a comment naming the register they belong to; the runs are
    kept with that tag.  A structure guarded by
    [#ifdef __LITTLE_ENDIAN_BITFIELD ... #else ... #endif] has two member
    lists (the second one carries no tags); a structure without the guard
    has one. *)
Inductive struct_body : Set :=
  | Conditional (le : list (string * list bitfield)) (be : list bitfield)
  | Unconditional (fs : list (string * list bitfield)).

(** [union name { uint32_t u32; struct name_s { ... } s; }]. *)
Record reg_union : Set := { u_name : string; u_body : struct_body }.

(** An enumeration of named values of a field: the enumerators in
    declaration order, duplicates of a value included. *)
Record field_enum : Set := { e_name : string; e_consts : list (string * Z) }.

(** ** CAN_Registers memory map *)

(** [enum ctu_can_fd_can_registers]. *)
Inductive ctu_can_fd_can_registers : Set :=
  | CTU_CAN_FD_DEVICE_ID
  | CTU_CAN_FD_VERSION
  | CTU_CAN_FD_MODE
  | CTU_CAN_FD_COMMAND
  | CTU_CAN_FD_STATUS
  | CTU_CAN_FD_SETTINGS
  | CTU_CAN_FD_INT_STAT
  | CTU_CAN_FD_INT_ENA_SET
  | CTU_CAN_FD_INT_ENA_CLR
  | CTU_CAN_FD_INT_MASK_SET
  | CTU_CAN_FD_INT_MASK_CLR
  | CTU_CAN_FD_BTR
  | CTU_CAN_FD_BTR_FD
  | CTU_CAN_FD_EWL
  | CTU_CAN_FD_ERP
  | CTU_CAN_FD_FAULT_STATE
  | CTU_CAN_FD_RXC
  | CTU_CAN_FD_TXC
  | CTU_CAN_FD_ERR_NORM
  | CTU_CAN_FD_ERR_FD
  | CTU_CAN_FD_CTR_PRES
  | CTU_CAN_FD_FILTER_A_MASK
  | CTU_CAN_FD_FILTER_A_VAL
  | CTU_CAN_FD_FILTER_B_MASK
  | CTU_CAN_FD_FILTER_B_VAL
  | CTU_CAN_FD_FILTER_C_MASK
  | CTU_CAN_FD_FILTER_C_VAL
  | CTU_CAN_FD_FILTER_RAN_LOW
  | CTU_CAN_FD_FILTER_RAN_HIGH
  | CTU_CAN_FD_FILTER_CONTROL
  | CTU_CAN_FD_FILTER_STATUS
  | CTU_CAN_FD_RX_MEM_INFO
  | CTU_CAN_FD_RX_POINTERS
  | CTU_CAN_FD_RX_STATUS
  | CTU_CAN_FD_RX_SETTINGS
  | CTU_CAN_FD_RX_DATA
  | CTU_CAN_FD_TX_STATUS
  | CTU_CAN_FD_TX_COMMAND
  | CTU_CAN_FD_TX_PRIORITY
  | CTU_CAN_FD_ERR_CAPT
  | CTU_CAN_FD_ALC
  | CTU_CAN_FD_TRV_DELAY
  | CTU_CAN_FD_SSP_CFG
  | CTU_CAN_FD_RX_COUNTER
  | CTU_CAN_FD_TX_COUNTER
  | CTU_CAN_FD_DEBUG_REGISTER
  | CTU_CAN_FD_YOLO_REG
  | CTU_CAN_FD_TIMESTAMP_LOW
  | CTU_CAN_FD_TIMESTAMP_HIGH
  | CTU_CAN_FD_TXTB1_DATA_1
  | CTU_CAN_FD_TXTB1_DATA_2
  | CTU_CAN_FD_TXTB1_DATA_20
  | CTU_CAN_FD_TXTB2_DATA_1
  | CTU_CAN_FD_TXTB2_DATA_2
  | CTU_CAN_FD_TXTB2_DATA_20
  | CTU_CAN_FD_TXTB3_DATA_1
  | CTU_CAN_FD_TXTB3_DATA_2
  | CTU_CAN_FD_TXTB3_DATA_20
  | CTU_CAN_FD_TXTB4_DATA_1
  | CTU_CAN_FD_TXTB4_DATA_2
  | CTU_CAN_FD_TXTB4_DATA_20
  | CTU_CAN_FD_LOG_TRIG_CONFIG
  | CTU_CAN_FD_LOG_CAPT_CONFIG
  | CTU_CAN_FD_LOG_STATUS
  | CTU_CAN_FD_LOG_POINTERS
  | CTU_CAN_FD_LOG_COMMAND
  | CTU_CAN_FD_LOG_CAPT_EVENT_1
  | CTU_CAN_FD_LOG_CAPT_EVENT_2.

(** The enumerator values: byte offsets into the register block. *)
Definition reg_offset (r : ctu_can_fd_can_registers) : Z :=
  match r with
  | CTU_CAN_FD_DEVICE_ID             => 0x0
  | CTU_CAN_FD_VERSION               => 0x2
  | CTU_CAN_FD_MODE                  => 0x4
  | CTU_CAN_FD_COMMAND               => 0x5
  | CTU_CAN_FD_STATUS                => 0x6
  | CTU_CAN_FD_SETTINGS              => 0x7
  | CTU_CAN_FD_INT_STAT              => 0x8
  | CTU_CAN_FD_INT_ENA_SET           => 0xc
  | CTU_CAN_FD_INT_ENA_CLR           => 0x10
  | CTU_CAN_FD_INT_MASK_SET          => 0x14
  | CTU_CAN_FD_INT_MASK_CLR          => 0x18
  | CTU_CAN_FD_BTR                   => 0x1c
  | CTU_CAN_FD_BTR_FD                => 0x20
  | CTU_CAN_FD_EWL                   => 0x24
  | CTU_CAN_FD_ERP                   => 0x25
  | CTU_CAN_FD_FAULT_STATE           => 0x26
  | CTU_CAN_FD_RXC                   => 0x28
  | CTU_CAN_FD_TXC                   => 0x2a
  | CTU_CAN_FD_ERR_NORM              => 0x2c
  | CTU_CAN_FD_ERR_FD                => 0x2e
  | CTU_CAN_FD_CTR_PRES              => 0x30
  | CTU_CAN_FD_FILTER_A_MASK         => 0x34
  | CTU_CAN_FD_FILTER_A_VAL          => 0x38
  | CTU_CAN_FD_FILTER_B_MASK         => 0x3c
  | CTU_CAN_FD_FILTER_B_VAL          => 0x40
  | CTU_CAN_FD_FILTER_C_MASK         => 0x44
  | CTU_CAN_FD_FILTER_C_VAL          => 0x48
  | CTU_CAN_FD_FILTER_RAN_LOW        => 0x4c
  | CTU_CAN_FD_FILTER_RAN_HIGH       => 0x50
  | CTU_CAN_FD_FILTER_CONTROL        => 0x54
  | CTU_CAN_FD_FILTER_STATUS         => 0x56
  | CTU_CAN_FD_RX_MEM_INFO           => 0x58
  | CTU_CAN_FD_RX_POINTERS           => 0x5c
  | CTU_CAN_FD_RX_STATUS             => 0x60
  | CTU_CAN_FD_RX_SETTINGS           => 0x62
  | CTU_CAN_FD_RX_DATA               => 0x64
  | CTU_CAN_FD_TX_STATUS             => 0x68
  | CTU_CAN_FD_TX_COMMAND            => 0x6c
  | CTU_CAN_FD_TX_PRIORITY           => 0x70
  | CTU_CAN_FD_ERR_CAPT              => 0x74
  | CTU_CAN_FD_ALC                   => 0x75
  | CTU_CAN_FD_TRV_DELAY             => 0x78
  | CTU_CAN_FD_SSP_CFG               => 0x7a
  | CTU_CAN_FD_RX_COUNTER            => 0x7c
  | CTU_CAN_FD_TX_COUNTER            => 0x80
  | CTU_CAN_FD_DEBUG_REGISTER        => 0x84
  | CTU_CAN_FD_YOLO_REG              => 0x88
  | CTU_CAN_FD_TIMESTAMP_LOW         => 0x8c
  | CTU_CAN_FD_TIMESTAMP_HIGH        => 0x90
  | CTU_CAN_FD_TXTB1_DATA_1          => 0x100
  | CTU_CAN_FD_TXTB1_DATA_2          => 0x104
  | CTU_CAN_FD_TXTB1_DATA_20         => 0x14c
  | CTU_CAN_FD_TXTB2_DATA_1          => 0x200
  | CTU_CAN_FD_TXTB2_DATA_2          => 0x204
  | CTU_CAN_FD_TXTB2_DATA_20         => 0x24c
  | CTU_CAN_FD_TXTB3_DATA_1          => 0x300
  | CTU_CAN_FD_TXTB3_DATA_2          => 0x304
  | CTU_CAN_FD_TXTB3_DATA_20         => 0x34c
  | CTU_CAN_FD_TXTB4_DATA_1          => 0x400
  | CTU_CAN_FD_TXTB4_DATA_2          => 0x404
  | CTU_CAN_FD_TXTB4_DATA_20         => 0x44c
  | CTU_CAN_FD_LOG_TRIG_CONFIG       => 0x500
  | CTU_CAN_FD_LOG_CAPT_CONFIG       => 0x504
  | CTU_CAN_FD_LOG_STATUS            => 0x508
  | CTU_CAN_FD_LOG_POINTERS          => 0x50a
  | CTU_CAN_FD_LOG_COMMAND           => 0x50c
  | CTU_CAN_FD_LOG_CAPT_EVENT_1      => 0x510
  | CTU_CAN_FD_LOG_CAPT_EVENT_2      => 0x514
  end.

(** The enumerator identifiers, as spelled in the header. *)
Definition reg_name (r : ctu_can_fd_can_registers) : string :=
  match r with
  | CTU_CAN_FD_DEVICE_ID             => "CTU_CAN_FD_DEVICE_ID"
  | CTU_CAN_FD_VERSION               => "CTU_CAN_FD_VERSION"
  | CTU_CAN_FD_MODE                  => "CTU_CAN_FD_MODE"
  | CTU_CAN_FD_COMMAND               => "CTU_CAN_FD_COMMAND"
  | CTU_CAN_FD_STATUS                => "CTU_CAN_FD_STATUS"
  | CTU_CAN_FD_SETTINGS              => "CTU_CAN_FD_SETTINGS"
  | CTU_CAN_FD_INT_STAT              => "CTU_CAN_FD_INT_STAT"
  | CTU_CAN_FD_INT_ENA_SET           => "CTU_CAN_FD_INT_ENA_SET"
  | CTU_CAN_FD_INT_ENA_CLR           => "CTU_CAN_FD_INT_ENA_CLR"
  | CTU_CAN_FD_INT_MASK_SET          => "CTU_CAN_FD_INT_MASK_SET"
  | CTU_CAN_FD_INT_MASK_CLR          => "CTU_CAN_FD_INT_MASK_CLR"
  | CTU_CAN_FD_BTR                   => "CTU_CAN_FD_BTR"
  | CTU_CAN_FD_BTR_FD                => "CTU_CAN_FD_BTR_FD"
  | CTU_CAN_FD_EWL                   => "CTU_CAN_FD_EWL"
  | CTU_CAN_FD_ERP                   => "CTU_CAN_FD_ERP"
  | CTU_CAN_FD_FAULT_STATE           => "CTU_CAN_FD_FAULT_STATE"
  | CTU_CAN_FD_RXC                   => "CTU_CAN_FD_RXC"
  | CTU_CAN_FD_TXC                   => "CTU_CAN_FD_TXC"
  | CTU_CAN_FD_ERR_NORM              => "CTU_CAN_FD_ERR_NORM"
  | CTU_CAN_FD_ERR_FD                => "CTU_CAN_FD_ERR_FD"
  | CTU_CAN_FD_CTR_PRES              => "CTU_CAN_FD_CTR_PRES"
  | CTU_CAN_FD_FILTER_A_MASK         => "CTU_CAN_FD_FILTER_A_MASK"
  | CTU_CAN_FD_FILTER_A_VAL          => "CTU_CAN_FD_FILTER_A_VAL"
  | CTU_CAN_FD_FILTER_B_MASK         => "CTU_CAN_FD_FILTER_B_MASK"
  | CTU_CAN_FD_FILTER_B_VAL          => "CTU_CAN_FD_FILTER_B_VAL"
  | CTU_CAN_FD_FILTER_C_MASK         => "CTU_CAN_FD_FILTER_C_MASK"
  | CTU_CAN_FD_FILTER_C_VAL          => "CTU_CAN_FD_FILTER_C_VAL"
  | CTU_CAN_FD_FILTER_RAN_LOW        => "CTU_CAN_FD_FILTER_RAN_LOW"
  | CTU_CAN_FD_FILTER_RAN_HIGH       => "CTU_CAN_FD_FILTER_RAN_HIGH"
  | CTU_CAN_FD_FILTER_CONTROL        => "CTU_CAN_FD_FILTER_CONTROL"
  | CTU_CAN_FD_FILTER_STATUS         => "CTU_CAN_FD_FILTER_STATUS"
  | CTU_CAN_FD_RX_MEM_INFO           => "CTU_CAN_FD_RX_MEM_INFO"
  | CTU_CAN_FD_RX_POINTERS           => "CTU_CAN_FD_RX_POINTERS"
  | CTU_CAN_FD_RX_STATUS             => "CTU_CAN_FD_RX_STATUS"
  | CTU_CAN_FD_RX_SETTINGS           => "CTU_CAN_FD_RX_SETTINGS"
  | CTU_CAN_FD_RX_DATA               => "CTU_CAN_FD_RX_DATA"
  | CTU_CAN_FD_TX_STATUS             => "CTU_CAN_FD_TX_STATUS"
  | CTU_CAN_FD_TX_COMMAND            => "CTU_CAN_FD_TX_COMMAND"
  | CTU_CAN_FD_TX_PRIORITY           => "CTU_CAN_FD_TX_PRIORITY"
  | CTU_CAN_FD_ERR_CAPT              => "CTU_CAN_FD_ERR_CAPT"
  | CTU_CAN_FD_ALC                   => "CTU_CAN_FD_ALC"
  | CTU_CAN_FD_TRV_DELAY             => "CTU_CAN_FD_TRV_DELAY"
  | CTU_CAN_FD_SSP_CFG               => "CTU_CAN_FD_SSP_CFG"
  | CTU_CAN_FD_RX_COUNTER            => "CTU_CAN_FD_RX_COUNTER"
  | CTU_CAN_FD_TX_COUNTER            => "CTU_CAN_FD_TX_COUNTER"
  | CTU_CAN_FD_DEBUG_REGISTER        => "CTU_CAN_FD_DEBUG_REGISTER"
  | CTU_CAN_FD_YOLO_REG              => "CTU_CAN_FD_YOLO_REG"
  | CTU_CAN_FD_TIMESTAMP_LOW         => "CTU_CAN_FD_TIMESTAMP_LOW"
  | CTU_CAN_FD_TIMESTAMP_HIGH        => "CTU_CAN_FD_TIMESTAMP_HIGH"
  | CTU_CAN_FD_TXTB1_DATA_1          => "CTU_CAN_FD_TXTB1_DATA_1"
  | CTU_CAN_FD_TXTB1_DATA_2          => "CTU_CAN_FD_TXTB1_DATA_2"
  | CTU_CAN_FD_TXTB1_DATA_20         => "CTU_CAN_FD_TXTB1_DATA_20"
  | CTU_CAN_FD_TXTB2_DATA_1          => "CTU_CAN_FD_TXTB2_DATA_1"
  | CTU_CAN_FD_TXTB2_DATA_2          => "CTU_CAN_FD_TXTB2_DATA_2"
  | CTU_CAN_FD_TXTB2_DATA_20         => "CTU_CAN_FD_TXTB2_DATA_20"
  | CTU_CAN_FD_TXTB3_DATA_1          => "CTU_CAN_FD_TXTB3_DATA_1"
  | CTU_CAN_FD_TXTB3_DATA_2          => "CTU_CAN_FD_TXTB3_DATA_2"
  | CTU_CAN_FD_TXTB3_DATA_20         => "CTU_CAN_FD_TXTB3_DATA_20"
  | CTU_CAN_FD_TXTB4_DATA_1          => "CTU_CAN_FD_TXTB4_DATA_1"
  | CTU_CAN_FD_TXTB4_DATA_2          => "CTU_CAN_FD_TXTB4_DATA_2"
  | CTU_CAN_FD_TXTB4_DATA_20         => "CTU_CAN_FD_TXTB4_DATA_20"
  | CTU_CAN_FD_LOG_TRIG_CONFIG       => "CTU_CAN_FD_LOG_TRIG_CONFIG"
  | CTU_CAN_FD_LOG_CAPT_CONFIG       => "CTU_CAN_FD_LOG_CAPT_CONFIG"
  | CTU_CAN_FD_LOG_STATUS            => "CTU_CAN_FD_LOG_STATUS"
  | CTU_CAN_FD_LOG_POINTERS          => "CTU_CAN_FD_LOG_POINTERS"
  | CTU_CAN_FD_LOG_COMMAND           => "CTU_CAN_FD_LOG_COMMAND"
  | CTU_CAN_FD_LOG_CAPT_EVENT_1      => "CTU_CAN_FD_LOG_CAPT_EVENT_1"
  | CTU_CAN_FD_LOG_CAPT_EVENT_2      => "CTU_CAN_FD_LOG_CAPT_EVENT_2"
  end.

(** All enumerators, in declaration order. *)
Definition all_registers : list ctu_can_fd_can_registers :=
  [ CTU_CAN_FD_DEVICE_ID;
    CTU_CAN_FD_VERSION;
    CTU_CAN_FD_MODE;
    CTU_CAN_FD_COMMAND;
    CTU_CAN_FD_STATUS;
    CTU_CAN_FD_SETTINGS;
    CTU_CAN_FD_INT_STAT;
    CTU_CAN_FD_INT_ENA_SET;
    CTU_CAN_FD_INT_ENA_CLR;
    CTU_CAN_FD_INT_MASK_SET;
    CTU_CAN_FD_INT_MASK_CLR;
    CTU_CAN_FD_BTR;
    CTU_CAN_FD_BTR_FD;
    CTU_CAN_FD_EWL;
    CTU_CAN_FD_ERP;
    CTU_CAN_FD_FAULT_STATE;
    CTU_CAN_FD_RXC;
    CTU_CAN_FD_TXC;
    CTU_CAN_FD_ERR_NORM;
    CTU_CAN_FD_ERR_FD;
    CTU_CAN_FD_CTR_PRES;
    CTU_CAN_FD_FILTER_A_MASK;
    CTU_CAN_FD_FILTER_A_VAL;
    CTU_CAN_FD_FILTER_B_MASK;
    CTU_CAN_FD_FILTER_B_VAL;
    CTU_CAN_FD_FILTER_C_MASK;
    CTU_CAN_FD_FILTER_C_VAL;
    CTU_CAN_FD_FILTER_RAN_LOW;
    CTU_CAN_FD_FILTER_RAN_HIGH;
    CTU_CAN_FD_FILTER_CONTROL;
    CTU_CAN_FD_FILTER_STATUS;
    CTU_CAN_FD_RX_MEM_INFO;
    CTU_CAN_FD_RX_POINTERS;
    CTU_CAN_FD_RX_STATUS;
    CTU_CAN_FD_RX_SETTINGS;
    CTU_CAN_FD_RX_DATA;
    CTU_CAN_FD_TX_STATUS;
    CTU_CAN_FD_TX_COMMAND;
    CTU_CAN_FD_TX_PRIORITY;
    CTU_CAN_FD_ERR_CAPT;
    CTU_CAN_FD_ALC;
    CTU_CAN_FD_TRV_DELAY;
    CTU_CAN_FD_SSP_CFG;
    CTU_CAN_FD_RX_COUNTER;
    CTU_CAN_FD_TX_COUNTER;
    CTU_CAN_FD_DEBUG_REGISTER;
    CTU_CAN_FD_YOLO_REG;
    CTU_CAN_FD_TIMESTAMP_LOW;
    CTU_CAN_FD_TIMESTAMP_HIGH;
    CTU_CAN_FD_TXTB1_DATA_1;
    CTU_CAN_FD_TXTB1_DATA_2;
    CTU_CAN_FD_TXTB1_DATA_20;
    CTU_CAN_FD_TXTB2_DATA_1;
    CTU_CAN_FD_TXTB2_DATA_2;
    CTU_CAN_FD_TXTB2_DATA_20;
    CTU_CAN_FD_TXTB3_DATA_1;
    CTU_CAN_FD_TXTB3_DATA_2;
    CTU_CAN_FD_TXTB3_DATA_20;
    CTU_CAN_FD_TXTB4_DATA_1;
    CTU_CAN_FD_TXTB4_DATA_2;
    CTU_CAN_FD_TXTB4_DATA_20;
    CTU_CAN_FD_LOG_TRIG_CONFIG;
    CTU_CAN_FD_LOG_CAPT_CONFIG;
    CTU_CAN_FD_LOG_STATUS;
    CTU_CAN_FD_LOG_POINTERS;
    CTU_CAN_FD_LOG_COMMAND;
    CTU_CAN_FD_LOG_CAPT_EVENT_1;
    CTU_CAN_FD_LOG_CAPT_EVENT_2 ].

(** ** Register descriptions *)

Definition ctu_can_fd_device_id_version : reg_union :=
  {| u_name := "ctu_can_fd_device_id_version";
     u_body := Conditional
       [ ("DEVICE_ID",
          [ BF "device_id" 16 ]);
         ("VERSION",
          [ BF "ver_minor" 8;
            BF "ver_major" 8 ]) ]
       [ BF "ver_major" 8;
         BF "ver_minor" 8;
         BF "device_id" 16 ] |}.

Definition ctu_can_fd_device_id_device_id : field_enum :=
  {| e_name := "ctu_can_fd_device_id_device_id";
     e_consts :=
       [ ("CTU_CAN_FD_ID", 0xcafd) ] |}.

Definition ctu_can_fd_mode_command_status_settings : reg_union :=
  {| u_name := "ctu_can_fd_mode_command_status_settings";
     u_body := Conditional
       [ ("MODE",
          [ BF "rst" 1;
            BF "lom" 1;
            BF "stm" 1;
            BF "afm" 1;
            BF "fde" 1;
            BF "rtrp" 1;
            BF "tsm" 1;
            BF "acf" 1;
            BF "reserved_8" 1 ]);
         ("COMMAND",
          [ BF "abt" 1;
            BF "rrb" 1;
            BF "cdo" 1;
            BF "ercrst" 1;
            BF "rxfcrst" 1;
            BF "txfcrst" 1;
            BF "reserved_15" 1 ]);
         ("STATUS",
          [ BF "rxne" 1;
            BF "dor" 1;
            BF "txnf" 1;
            BF "eft" 1;
            BF "rxs" 1;
            BF "txs" 1;
            BF "ewl" 1;
            BF "idle" 1 ]);
         ("SETTINGS",
          [ BF "rtrle" 1;
            BF "rtrth" 4;
            BF "ilbp" 1;
            BF "ena" 1;
            BF "nisofd" 1 ]) ]
       [ BF "nisofd" 1;
         BF "ena" 1;
         BF "ilbp" 1;
         BF "rtrth" 4;
         BF "rtrle" 1;
         BF "idle" 1;
         BF "ewl" 1;
         BF "txs" 1;
         BF "rxs" 1;
         BF "eft" 1;
         BF "txnf" 1;
         BF "dor" 1;
         BF "rxne" 1;
         BF "reserved_15" 1;
         BF "txfcrst" 1;
         BF "rxfcrst" 1;
         BF "ercrst" 1;
         BF "cdo" 1;
         BF "rrb" 1;
         BF "abt" 1;
         BF "reserved_8" 1;
         BF "acf" 1;
         BF "tsm" 1;
         BF "rtrp" 1;
         BF "fde" 1;
         BF "afm" 1;
         BF "stm" 1;
         BF "lom" 1;
         BF "rst" 1 ] |}.

Definition ctu_can_fd_mode_lom : field_enum :=
  {| e_name := "ctu_can_fd_mode_lom";
     e_consts :=
       [ ("LOM_DISABLED", 0x0);
         ("LOM_ENABLED", 0x1) ] |}.

Definition ctu_can_fd_mode_stm : field_enum :=
  {| e_name := "ctu_can_fd_mode_stm";
     e_consts :=
       [ ("STM_DISABLED", 0x0);
         ("STM_ENABLED", 0x1) ] |}.

Definition ctu_can_fd_mode_afm : field_enum :=
  {| e_name := "ctu_can_fd_mode_afm";
     e_consts :=
       [ ("AFM_DISABLED", 0x0);
         ("AFM_ENABLED", 0x1) ] |}.

Definition ctu_can_fd_mode_fde : field_enum :=
  {| e_name := "ctu_can_fd_mode_fde";
     e_consts :=
       [ ("FDE_DISABLE", 0x0);
         ("FDE_ENABLE", 0x1) ] |}.

Definition ctu_can_fd_mode_rtrp : field_enum :=
  {| e_name := "ctu_can_fd_mode_rtrp";
     e_consts :=
       [ ("RTR_EXTRA", 0x0);
         ("RTR_STANDARD", 0x1) ] |}.

Definition ctu_can_fd_mode_tsm : field_enum :=
  {| e_name := "ctu_can_fd_mode_tsm";
     e_consts :=
       [ ("TSM_DISABLE", 0x0);
         ("TSM_ENABLE", 0x1) ] |}.

Definition ctu_can_fd_mode_acf : field_enum :=
  {| e_name := "ctu_can_fd_mode_acf";
     e_consts :=
       [ ("ACF_DISABLED", 0x0);
         ("ACF_ENABLED", 0x1) ] |}.

Definition ctu_can_fd_settings_rtrle : field_enum :=
  {| e_name := "ctu_can_fd_settings_rtrle";
     e_consts :=
       [ ("RTRLE_DISABLED", 0x0);
         ("RTRLE_ENABLED", 0x1) ] |}.

Definition ctu_can_fd_settings_ilbp : field_enum :=
  {| e_name := "ctu_can_fd_settings_ilbp";
     e_consts :=
       [ ("INT_LOOP_DISABLED", 0x0);
         ("INT_LOOP_ENABLED", 0x1) ] |}.

Definition ctu_can_fd_settings_ena : field_enum :=
  {| e_name := "ctu_can_fd_settings_ena";
     e_consts :=
       [ ("DISABLED", 0x0);
         ("ENABLED", 0x1) ] |}.

Definition ctu_can_fd_settings_nisofd : field_enum :=
  {| e_name := "ctu_can_fd_settings_nisofd";
     e_consts :=
       [ ("ISO_FD", 0x0);
         ("NON_ISO_FD", 0x1) ] |}.

Definition ctu_can_fd_int_stat : reg_union :=
  {| u_name := "ctu_can_fd_int_stat";
     u_body := Conditional
       [ ("INT_STAT",
          [ BF "rxi" 1;
            BF "txi" 1;
            BF "ewli" 1;
            BF "doi" 1;
            BF "epi" 1;
            BF "ali" 1;
            BF "bei" 1;
            BF "lfi" 1;
            BF "rxfi" 1;
            BF "bsi" 1;
            BF "rbnei" 1;
            BF "txbhci" 1;
            BF "reserved_31_12" 20 ]) ]
       [ BF "reserved_31_12" 20;
         BF "txbhci" 1;
         BF "rbnei" 1;
         BF "bsi" 1;
         BF "rxfi" 1;
         BF "lfi" 1;
         BF "bei" 1;
         BF "ali" 1;
         BF "epi" 1;
         BF "doi" 1;
         BF "ewli" 1;
         BF "txi" 1;
         BF "rxi" 1 ] |}.

Definition ctu_can_fd_int_ena_set : reg_union :=
  {| u_name := "ctu_can_fd_int_ena_set";
     u_body := Conditional
       [ ("INT_ENA_SET",
          [ BF "int_ena_set" 12;
            BF "reserved_31_12" 20 ]) ]
       [ BF "reserved_31_12" 20;
         BF "int_ena_set" 12 ] |}.

Definition ctu_can_fd_int_ena_clr : reg_union :=
  {| u_name := "ctu_can_fd_int_ena_clr";
     u_body := Conditional
       [ ("INT_ENA_CLR",
          [ BF "int_ena_clr" 12;
            BF "reserved_31_12" 20 ]) ]
       [ BF "reserved_31_12" 20;
         BF "int_ena_clr" 12 ] |}.

Definition ctu_can_fd_int_mask_set : reg_union :=
  {| u_name := "ctu_can_fd_int_mask_set";
     u_body := Conditional
       [ ("INT_MASK_SET",
          [ BF "int_mask_set" 12;
            BF "reserved_31_12" 20 ]) ]
       [ BF "reserved_31_12" 20;
         BF "int_mask_set" 12 ] |}.

Definition ctu_can_fd_int_mask_clr : reg_union :=
  {| u_name := "ctu_can_fd_int_mask_clr";
     u_body := Conditional
       [ ("INT_MASK_CLR",
          [ BF "int_mask_clr" 12;
            BF "reserved_31_12" 20 ]) ]
       [ BF "reserved_31_12" 20;
         BF "int_mask_clr" 12 ] |}.

Definition ctu_can_fd_btr : reg_union :=
  {| u_name := "ctu_can_fd_btr";
     u_body := Conditional
       [ ("BTR",
          [ BF "prop" 7;
            BF "ph1" 6;
            BF "ph2" 6;
            BF "brp" 8;
            BF "sjw" 5 ]) ]
       [ BF "sjw" 5;
         BF "brp" 8;
         BF "ph2" 6;
         BF "ph1" 6;
         BF "prop" 7 ] |}.

Definition ctu_can_fd_btr_fd : reg_union :=
  {| u_name := "ctu_can_fd_btr_fd";
     u_body := Conditional
       [ ("BTR_FD",
          [ BF "prop_fd" 6;
            BF "reserved_6" 1;
            BF "ph1_fd" 5;
            BF "reserved_12" 1;
            BF "ph2_fd" 5;
            BF "reserved_18" 1;
            BF "brp_fd" 8;
            BF "sjw_fd" 5 ]) ]
       [ BF "sjw_fd" 5;
         BF "brp_fd" 8;
         BF "reserved_18" 1;
         BF "ph2_fd" 5;
         BF "reserved_12" 1;
         BF "ph1_fd" 5;
         BF "reserved_6" 1;
         BF "prop_fd" 6 ] |}.

Definition ctu_can_fd_ewl_erp_fault_state : reg_union :=
  {| u_name := "ctu_can_fd_ewl_erp_fault_state";
     u_body := Conditional
       [ ("EWL",
          [ BF "ew_limit" 8 ]);
         ("ERP",
          [ BF "erp_limit" 8 ]);
         ("FAULT_STATE",
          [ BF "era" 1;
            BF "erp" 1;
            BF "bof" 1;
            BF "reserved_31_19" 13 ]) ]
       [ BF "reserved_31_19" 13;
         BF "bof" 1;
         BF "erp" 1;
         BF "era" 1;
         BF "erp_limit" 8;
         BF "ew_limit" 8 ] |}.

Definition ctu_can_fd_rxc_txc : reg_union :=
  {| u_name := "ctu_can_fd_rxc_txc";
     u_body := Conditional
       [ ("RXC",
          [ BF "rxc_val" 16 ]);
         ("TXC",
          [ BF "txc_val" 16 ]) ]
       [ BF "txc_val" 16;
         BF "rxc_val" 16 ] |}.

Definition ctu_can_fd_err_norm_err_fd : reg_union :=
  {| u_name := "ctu_can_fd_err_norm_err_fd";
     u_body := Conditional
       [ ("ERR_NORM",
          [ BF "err_norm_val" 16 ]);
         ("ERR_FD",
          [ BF "err_fd_val" 16 ]) ]
       [ BF "err_fd_val" 16;
         BF "err_norm_val" 16 ] |}.

Definition ctu_can_fd_ctr_pres : reg_union :=
  {| u_name := "ctu_can_fd_ctr_pres";
     u_body := Conditional
       [ ("CTR_PRES",
          [ BF "ctpv" 9;
            BF "ptx" 1;
            BF "prx" 1;
            BF "enorm" 1;
            BF "efd" 1;
            BF "reserved_31_13" 19 ]) ]
       [ BF "reserved_31_13" 19;
         BF "efd" 1;
         BF "enorm" 1;
         BF "prx" 1;
         BF "ptx" 1;
         BF "ctpv" 9 ] |}.

Definition ctu_can_fd_filter_a_mask : reg_union :=
  {| u_name := "ctu_can_fd_filter_a_mask";
     u_body := Conditional
       [ ("FILTER_A_MASK",
          [ BF "bit_mask_a_val" 29;
            BF "reserved_31_29" 3 ]) ]
       [ BF "reserved_31_29" 3;
         BF "bit_mask_a_val" 29 ] |}.

Definition ctu_can_fd_filter_a_val : reg_union :=
  {| u_name := "ctu_can_fd_filter_a_val";
     u_body := Conditional
       [ ("FILTER_A_VAL",
          [ BF "bit_val_a_val" 29;
            BF "reserved_31_29" 3 ]) ]
       [ BF "reserved_31_29" 3;
         BF "bit_val_a_val" 29 ] |}.

Definition ctu_can_fd_filter_b_mask : reg_union :=
  {| u_name := "ctu_can_fd_filter_b_mask";
     u_body := Conditional
       [ ("FILTER_B_MASK",
          [ BF "bit_mask_b_val" 29;
            BF "reserved_31_29" 3 ]) ]
       [ BF "reserved_31_29" 3;
         BF "bit_mask_b_val" 29 ] |}.

Definition ctu_can_fd_filter_b_val : reg_union :=
  {| u_name := "ctu_can_fd_filter_b_val";
     u_body := Conditional
       [ ("FILTER_B_VAL",
          [ BF "bit_val_b_val" 29;
            BF "reserved_31_29" 3 ]) ]
       [ BF "reserved_31_29" 3;
         BF "bit_val_b_val" 29 ] |}.

Definition ctu_can_fd_filter_c_mask : reg_union :=
  {| u_name := "ctu_can_fd_filter_c_mask";
     u_body := Conditional
       [ ("FILTER_C_MASK",
          [ BF "bit_mask_c_val" 29;
            BF "reserved_31_29" 3 ]) ]
       [ BF "reserved_31_29" 3;
         BF "bit_mask_c_val" 29 ] |}.

Definition ctu_can_fd_filter_c_val : reg_union :=
  {| u_name := "ctu_can_fd_filter_c_val";
     u_body := Conditional
       [ ("FILTER_C_VAL",
          [ BF "bit_val_c_val" 29;
            BF "reserved_31_29" 3 ]) ]
       [ BF "reserved_31_29" 3;
         BF "bit_val_c_val" 29 ] |}.

Definition ctu_can_fd_filter_ran_low : reg_union :=
  {| u_name := "ctu_can_fd_filter_ran_low";
     u_body := Conditional
       [ ("FILTER_RAN_LOW",
          [ BF "bit_ran_low_val" 29;
            BF "reserved_31_29" 3 ]) ]
       [ BF "reserved_31_29" 3;
         BF "bit_ran_low_val" 29 ] |}.

Definition ctu_can_fd_filter_ran_high : reg_union :=
  {| u_name := "ctu_can_fd_filter_ran_high";
     u_body := Conditional
       [ ("FILTER_RAN_HIGH",
          [ BF "bit_ran_high_val" 29;
            BF "reserved_31_29" 3 ]) ]
       [ BF "reserved_31_29" 3;
         BF "bit_ran_high_val" 29 ] |}.

Definition ctu_can_fd_filter_control_filter_status : reg_union :=
  {| u_name := "ctu_can_fd_filter_control_filter_status";
     u_body := Conditional
       [ ("FILTER_CONTROL",
          [ BF "fanb" 1;
            BF "fane" 1;
            BF "fafb" 1;
            BF "fafe" 1;
            BF "fbnb" 1;
            BF "fbne" 1;
            BF "fbfb" 1;
            BF "fbfe" 1;
            BF "fcnb" 1;
            BF "fcne" 1;
            BF "fcfb" 1;
            BF "fcfe" 1;
            BF "frnb" 1;
            BF "frne" 1;
            BF "frfb" 1;
            BF "frfe" 1 ]);
         ("FILTER_STATUS",
          [ BF "sfa" 1;
            BF "sfb" 1;
            BF "sfc" 1;
            BF "sfr" 1;
            BF "reserved_31_20" 12 ]) ]
       [ BF "reserved_31_20" 12;
         BF "sfr" 1;
         BF "sfc" 1;
         BF "sfb" 1;
         BF "sfa" 1;
         BF "frfe" 1;
         BF "frfb" 1;
         BF "frne" 1;
         BF "frnb" 1;
         BF "fcfe" 1;
         BF "fcfb" 1;
         BF "fcne" 1;
         BF "fcnb" 1;
         BF "fbfe" 1;
         BF "fbfb" 1;
         BF "fbne" 1;
         BF "fbnb" 1;
         BF "fafe" 1;
         BF "fafb" 1;
         BF "fane" 1;
         BF "fanb" 1 ] |}.

Definition ctu_can_fd_rx_mem_info : reg_union :=
  {| u_name := "ctu_can_fd_rx_mem_info";
     u_body := Conditional
       [ ("RX_MEM_INFO",
          [ BF "rx_buff_size" 13;
            BF "reserved_15_13" 3;
            BF "rx_mem_free" 13;
            BF "reserved_31_29" 3 ]) ]
       [ BF "reserved_31_29" 3;
         BF "rx_mem_free" 13;
         BF "reserved_15_13" 3;
         BF "rx_buff_size" 13 ] |}.

Definition ctu_can_fd_rx_pointers : reg_union :=
  {| u_name := "ctu_can_fd_rx_pointers";
     u_body := Conditional
       [ ("RX_POINTERS",
          [ BF "rx_wpp" 12;
            BF "reserved_15_12" 4;
            BF "rx_rpp" 12;
            BF "reserved_31_28" 4 ]) ]
       [ BF "reserved_31_28" 4;
         BF "rx_rpp" 12;
         BF "reserved_15_12" 4;
         BF "rx_wpp" 12 ] |}.

Definition ctu_can_fd_rx_status_rx_settings : reg_union :=
  {| u_name := "ctu_can_fd_rx_status_rx_settings";
     u_body := Conditional
       [ ("RX_STATUS",
          [ BF "rxe" 1;
            BF "rxf" 1;
            BF "reserved_3_2" 2;
            BF "rxfrc" 11;
            BF "reserved_15" 1 ]);
         ("RX_SETTINGS",
          [ BF "rtsop" 1;
            BF "reserved_31_17" 15 ]) ]
       [ BF "reserved_31_17" 15;
         BF "rtsop" 1;
         BF "reserved_15" 1;
         BF "rxfrc" 11;
         BF "reserved_3_2" 2;
         BF "rxf" 1;
         BF "rxe" 1 ] |}.

Definition ctu_can_fd_rx_settings_rtsop : field_enum :=
  {| e_name := "ctu_can_fd_rx_settings_rtsop";
     e_consts :=
       [ ("RTS_END", 0x0);
         ("RTS_BEG", 0x1) ] |}.

Definition ctu_can_fd_rx_data : reg_union :=
  {| u_name := "ctu_can_fd_rx_data";
     u_body := Unconditional
       [ ("RX_DATA",
          [ BF "rx_data" 32 ]) ] |}.

Definition ctu_can_fd_tx_status : reg_union :=
  {| u_name := "ctu_can_fd_tx_status";
     u_body := Conditional
       [ ("TX_STATUS",
          [ BF "tx1s" 4;
            BF "tx2s" 4;
            BF "tx3s" 4;
            BF "tx4s" 4;
            BF "reserved_31_16" 16 ]) ]
       [ BF "reserved_31_16" 16;
         BF "tx4s" 4;
         BF "tx3s" 4;
         BF "tx2s" 4;
         BF "tx1s" 4 ] |}.

Definition ctu_can_fd_tx_status_tx1s : field_enum :=
  {| e_name := "ctu_can_fd_tx_status_tx1s";
     e_consts :=
       [ ("TXT_RDY", 0x1);
         ("TXT_TRAN", 0x2);
         ("TXT_ABTP", 0x3);
         ("TXT_TOK", 0x4);
         ("TXT_ERR", 0x6);
         ("TXT_ABT", 0x7);
         ("TXT_ETY", 0x8) ] |}.

Definition ctu_can_fd_tx_command : reg_union :=
  {| u_name := "ctu_can_fd_tx_command";
     u_body := Conditional
       [ ("TX_COMMAND",
          [ BF "txce" 1;
            BF "txcr" 1;
            BF "txca" 1;
            BF "reserved_7_3" 5;
            BF "txb1" 1;
            BF "txb2" 1;
            BF "txb3" 1;
            BF "txb4" 1;
            BF "reserved_31_12" 20 ]) ]
       [ BF "reserved_31_12" 20;
         BF "txb4" 1;
         BF "txb3" 1;
         BF "txb2" 1;
         BF "txb1" 1;
         BF "reserved_7_3" 5;
         BF "txca" 1;
         BF "txcr" 1;
         BF "txce" 1 ] |}.

Definition ctu_can_fd_tx_priority : reg_union :=
  {| u_name := "ctu_can_fd_tx_priority";
     u_body := Conditional
       [ ("TX_PRIORITY",
          [ BF "txt1p" 3;
            BF "reserved_3" 1;
            BF "txt2p" 3;
            BF "reserved_7" 1;
            BF "txt3p" 3;
            BF "reserved_11" 1;
            BF "txt4p" 3;
            BF "reserved_31_15" 17 ]) ]
       [ BF "reserved_31_15" 17;
         BF "txt4p" 3;
         BF "reserved_11" 1;
         BF "txt3p" 3;
         BF "reserved_7" 1;
         BF "txt2p" 3;
         BF "reserved_3" 1;
         BF "txt1p" 3 ] |}.

Definition ctu_can_fd_err_capt_alc : reg_union :=
  {| u_name := "ctu_can_fd_err_capt_alc";
     u_body := Conditional
       [ ("ERR_CAPT",
          [ BF "err_pos" 5;
            BF "err_type" 3 ]);
         ("ALC",
          [ BF "alc_bit" 5;
            BF "alc_id_field" 3;
            BF "reserved_31_16" 16 ]) ]
       [ BF "reserved_31_16" 16;
         BF "alc_id_field" 3;
         BF "alc_bit" 5;
         BF "err_type" 3;
         BF "err_pos" 5 ] |}.

Definition ctu_can_fd_err_capt_err_pos : field_enum :=
  {| e_name := "ctu_can_fd_err_capt_err_pos";
     e_consts :=
       [ ("ERC_POS_SOF", 0x0);
         ("ERC_POS_ARB", 0x1);
         ("ERC_POS_CTRL", 0x2);
         ("ERC_POS_DATA", 0x3);
         ("ERC_POS_CRC", 0x4);
         ("ERC_POS_ACK", 0x5);
         ("ERC_POS_INTF", 0x6);
         ("ERC_POS_ERR", 0x7);
         ("ERC_POS_OVRL", 0x8);
         ("ERC_POS_OTHER", 0x1f) ] |}.

Definition ctu_can_fd_err_capt_err_type : field_enum :=
  {| e_name := "ctu_can_fd_err_capt_err_type";
     e_consts :=
       [ ("ERC_BIT_ERR", 0x0);
         ("ERC_CRC_ERR", 0x1);
         ("ERC_FRM_ERR", 0x2);
         ("ERC_ACK_ERR", 0x3);
         ("ERC_STUF_ERR", 0x4) ] |}.

Definition ctu_can_fd_alc_alc_id_field : field_enum :=
  {| e_name := "ctu_can_fd_alc_alc_id_field";
     e_consts :=
       [ ("ALC_BASE_ID", 0x0);
         ("ALC_SRR_RTR", 0x1);
         ("ALC_IDE", 0x2);
         ("ALC_EXTENSION", 0x3);
         ("ALC_RTR", 0x4) ] |}.

Definition ctu_can_fd_trv_delay_ssp_cfg : reg_union :=
  {| u_name := "ctu_can_fd_trv_delay_ssp_cfg";
     u_body := Conditional
       [ ("TRV_DELAY",
          [ BF "trv_delay_value" 16 ]);
         ("SSP_CFG",
          [ BF "ssp_offset" 7;
            BF "reserved_23" 1;
            BF "ssp_src" 2;
            BF "reserved_31_26" 6 ]) ]
       [ BF "reserved_31_26" 6;
         BF "ssp_src" 2;
         BF "reserved_23" 1;
         BF "ssp_offset" 7;
         BF "trv_delay_value" 16 ] |}.

Definition ctu_can_fd_ssp_cfg_ssp_src : field_enum :=
  {| e_name := "ctu_can_fd_ssp_cfg_ssp_src";
     e_consts :=
       [ ("SSP_SRC_MEASURED", 0x0);
         ("SSP_SRC_MEAS_N_OFFSET", 0x1);
         ("SSP_SRC_OFFSET", 0x2) ] |}.

Definition ctu_can_fd_rx_counter : reg_union :=
  {| u_name := "ctu_can_fd_rx_counter";
     u_body := Unconditional
       [ ("RX_COUNTER",
          [ BF "rx_counter_val" 32 ]) ] |}.

Definition ctu_can_fd_tx_counter : reg_union :=
  {| u_name := "ctu_can_fd_tx_counter";
     u_body := Unconditional
       [ ("TX_COUNTER",
          [ BF "tx_counter_val" 32 ]) ] |}.

Definition ctu_can_fd_debug_register : reg_union :=
  {| u_name := "ctu_can_fd_debug_register";
     u_body := Conditional
       [ ("DEBUG_REGISTER",
          [ BF "stuff_count" 3;
            BF "destuff_count" 3;
            BF "pc_arb" 1;
            BF "pc_con" 1;
            BF "pc_dat" 1;
            BF "pc_crc" 1;
            BF "pc_eof" 1;
            BF "pc_ovr" 1;
            BF "pc_int" 1;
            BF "reserved_31_13" 19 ]) ]
       [ BF "reserved_31_13" 19;
         BF "pc_int" 1;
         BF "pc_ovr" 1;
         BF "pc_eof" 1;
         BF "pc_crc" 1;
         BF "pc_dat" 1;
         BF "pc_con" 1;
         BF "pc_arb" 1;
         BF "destuff_count" 3;
         BF "stuff_count" 3 ] |}.

Definition ctu_can_fd_yolo_reg : reg_union :=
  {| u_name := "ctu_can_fd_yolo_reg";
     u_body := Unconditional
       [ ("YOLO_REG",
          [ BF "yolo_val" 32 ]) ] |}.

Definition ctu_can_fd_timestamp_low : reg_union :=
  {| u_name := "ctu_can_fd_timestamp_low";
     u_body := Unconditional
       [ ("TIMESTAMP_LOW",
          [ BF "timestamp_low" 32 ]) ] |}.

Definition ctu_can_fd_timestamp_high : reg_union :=
  {| u_name := "ctu_can_fd_timestamp_high";
     u_body := Unconditional
       [ ("TIMESTAMP_HIGH",
          [ BF "timestamp_high" 32 ]) ] |}.

Definition ctu_can_fd_log_trig_config : reg_union :=
  {| u_name := "ctu_can_fd_log_trig_config";
     u_body := Conditional
       [ ("LOG_TRIG_CONFIG",
          [ BF "t_sof" 1;
            BF "t_arbl" 1;
            BF "t_rev" 1;
            BF "t_trv" 1;
            BF "t_ovl" 1;
            BF "t_err" 1;
            BF "t_brs" 1;
            BF "t_usrw" 1;
            BF "t_arbs" 1;
            BF "t_ctrs" 1;
            BF "t_dats" 1;
            BF "t_crcs" 1;
            BF "t_ackr" 1;
            BF "t_acknr" 1;
            BF "t_ewlr" 1;
            BF "t_erpc" 1;
            BF "t_trs" 1;
            BF "t_res" 1;
            BF "reserved_31_18" 14 ]) ]
       [ BF "reserved_31_18" 14;
         BF "t_res" 1;
         BF "t_trs" 1;
         BF "t_erpc" 1;
         BF "t_ewlr" 1;
         BF "t_acknr" 1;
         BF "t_ackr" 1;
         BF "t_crcs" 1;
         BF "t_dats" 1;
         BF "t_ctrs" 1;
         BF "t_arbs" 1;
         BF "t_usrw" 1;
         BF "t_brs" 1;
         BF "t_err" 1;
         BF "t_ovl" 1;
         BF "t_trv" 1;
         BF "t_rev" 1;
         BF "t_arbl" 1;
         BF "t_sof" 1 ] |}.

Definition ctu_can_fd_log_capt_config : reg_union :=
  {| u_name := "ctu_can_fd_log_capt_config";
     u_body := Conditional
       [ ("LOG_CAPT_CONFIG",
          [ BF "c_sof" 1;
            BF "c_arbl" 1;
            BF "c_rev" 1;
            BF "c_trv" 1;
            BF "c_ovl" 1;
            BF "c_err" 1;
            BF "c_brs" 1;
            BF "c_arbs" 1;
            BF "c_ctrs" 1;
            BF "c_dats" 1;
            BF "c_crcs" 1;
            BF "c_ackr" 1;
            BF "c_acknr" 1;
            BF "c_ewlr" 1;
            BF "c_erc" 1;
            BF "c_trs" 1;
            BF "c_res" 1;
            BF "c_syne" 1;
            BF "c_stuff" 1;
            BF "c_destuff" 1;
            BF "c_ovr" 1;
            BF "reserved_31_21" 11 ]) ]
       [ BF "reserved_31_21" 11;
         BF "c_ovr" 1;
         BF "c_destuff" 1;
         BF "c_stuff" 1;
         BF "c_syne" 1;
         BF "c_res" 1;
         BF "c_trs" 1;
         BF "c_erc" 1;
         BF "c_ewlr" 1;
         BF "c_acknr" 1;
         BF "c_ackr" 1;
         BF "c_crcs" 1;
         BF "c_dats" 1;
         BF "c_ctrs" 1;
         BF "c_arbs" 1;
         BF "c_brs" 1;
         BF "c_err" 1;
         BF "c_ovl" 1;
         BF "c_trv" 1;
         BF "c_rev" 1;
         BF "c_arbl" 1;
         BF "c_sof" 1 ] |}.

Definition ctu_can_fd_log_status_log_pointers : reg_union :=
  {| u_name := "ctu_can_fd_log_status_log_pointers";
     u_body := Conditional
       [ ("LOG_STATUS",
          [ BF "log_cfg" 1;
            BF "log_rdy" 1;
            BF "log_run" 1;
            BF "reserved_6_3" 4;
            BF "log_exist" 1;
            BF "log_size" 8 ]);
         ("LOG_POINTERS",
          [ BF "log_wpp" 8;
            BF "log_rpp" 8 ]) ]
       [ BF "log_rpp" 8;
         BF "log_wpp" 8;
         BF "log_size" 8;
         BF "log_exist" 1;
         BF "reserved_6_3" 4;
         BF "log_run" 1;
         BF "log_rdy" 1;
         BF "log_cfg" 1 ] |}.

Definition ctu_can_fd_log_command : reg_union :=
  {| u_name := "ctu_can_fd_log_command";
     u_body := Conditional
       [ ("LOG_COMMAND",
          [ BF "log_str" 1;
            BF "log_abt" 1;
            BF "log_up" 1;
            BF "log_down" 1;
            BF "reserved_31_4" 28 ]) ]
       [ BF "reserved_31_4" 28;
         BF "log_down" 1;
         BF "log_up" 1;
         BF "log_abt" 1;
         BF "log_str" 1 ] |}.

Definition ctu_can_fd_log_capt_event_1 : reg_union :=
  {| u_name := "ctu_can_fd_log_capt_event_1";
     u_body := Unconditional
       [ ("LOG_CAPT_EVENT_1",
          [ BF "event_ts_48_16" 32 ]) ] |}.

Definition ctu_can_fd_log_capt_event_2 : reg_union :=
  {| u_name := "ctu_can_fd_log_capt_event_2";
     u_body := Conditional
       [ ("LOG_CAPT_EVENT_2",
          [ BF "evnt_type" 5;
            BF "evnt_den" 3;
            BF "evnt_det" 5;
            BF "evnt_dea" 3;
            BF "event_ts_15_0" 16 ]) ]
       [ BF "event_ts_15_0" 16;
         BF "evnt_dea" 3;
         BF "evnt_det" 5;
         BF "evnt_den" 3;
         BF "evnt_type" 5 ] |}.

Definition ctu_can_fd_log_capt_event_2_evnt_type : field_enum :=
  {| e_name := "ctu_can_fd_log_capt_event_2_evnt_type";
     e_consts :=
       [ ("SOF_EVNT", 0x1);
         ("ARBL_EVNT", 0x2);
         ("FREC_EVNT", 0x3);
         ("TRANV_EVNT", 0x4);
         ("OVRL_EVNT", 0x5);
         ("ERR_EVNT", 0x6);
         ("BRS_EVNT", 0x7);
         ("ARBS_EVNT", 0x8);
         ("CONS_EVNT", 0x9);
         ("DATS_EVNT", 0xa);
         ("CRCS_EVNT", 0xb);
         ("ACKR_EVNT", 0xc);
         ("ACKN_EVNT", 0xd);
         ("EWLR_EVNT", 0xe);
         ("FCSC_EVNT", 0xf);
         ("TS_EVNT", 0x10);
         ("RS_EVNT", 0x11);
         ("SE_EVNT", 0x12);
         ("STF_EVNT", 0x13);
         ("DSTF_EVNT", 0x14);
         ("DOR_EVNT", 0x15) ] |}.

Definition ctu_can_fd_log_capt_event_2_evnt_det : field_enum :=
  {| e_name := "ctu_can_fd_log_capt_event_2_evnt_det";
     e_consts :=
       [ ("ISN_FDSTF", 0x0);
         ("ISN_FSTF", 0x0);
         ("BIT_ERR", 0x1);
         ("S_UP", 0x1);
         ("IS_SYNC", 0x1);
         ("IS_FDSTF", 0x1);
         ("IS_FSTF", 0x1);
         ("ST_ERR", 0x2);
         ("S_DOWN", 0x2);
         ("IS_PROP", 0x2);
         ("CRC_ERR", 0x4);
         ("IS_PH1", 0x4);
         ("ACK_ERR", 0x8);
         ("IS_PH2", 0x8);
         ("FRM_ERR", 0x10) ] |}.

Definition ctu_can_fd_log_capt_event_2_evnt_dea : field_enum :=
  {| e_name := "ctu_can_fd_log_capt_event_2_evnt_dea";
     e_consts :=
       [ ("NO_SNC", 0x0);
         ("HA_SNC", 0x1);
         ("RE_SNC", 0x2) ] |}.

(** Every register union of the header, in declaration order. *)
Definition register_unions : list reg_union :=
  [ ctu_can_fd_device_id_version;
    ctu_can_fd_mode_command_status_settings;
    ctu_can_fd_int_stat;
    ctu_can_fd_int_ena_set;
    ctu_can_fd_int_ena_clr;
    ctu_can_fd_int_mask_set;
    ctu_can_fd_int_mask_clr;
    ctu_can_fd_btr;
    ctu_can_fd_btr_fd;
    ctu_can_fd_ewl_erp_fault_state;
    ctu_can_fd_rxc_txc;
    ctu_can_fd_err_norm_err_fd;
    ctu_can_fd_ctr_pres;
    ctu_can_fd_filter_a_mask;
    ctu_can_fd_filter_a_val;
    ctu_can_fd_filter_b_mask;
    ctu_can_fd_filter_b_val;
    ctu_can_fd_filter_c_mask;
    ctu_can_fd_filter_c_val;
    ctu_can_fd_filter_ran_low;
    ctu_can_fd_filter_ran_high;
    ctu_can_fd_filter_control_filter_status;
    ctu_can_fd_rx_mem_info;
    ctu_can_fd_rx_pointers;
    ctu_can_fd_rx_status_rx_settings;
    ctu_can_fd_rx_data;
    ctu_can_fd_tx_status;
    ctu_can_fd_tx_command;
    ctu_can_fd_tx_priority;
    ctu_can_fd_err_capt_alc;
    ctu_can_fd_trv_delay_ssp_cfg;
    ctu_can_fd_rx_counter;
    ctu_can_fd_tx_counter;
    ctu_can_fd_debug_register;
    ctu_can_fd_yolo_reg;
    ctu_can_fd_timestamp_low;
    ctu_can_fd_timestamp_high;
    ctu_can_fd_log_trig_config;
    ctu_can_fd_log_capt_config;
    ctu_can_fd_log_status_log_pointers;
    ctu_can_fd_log_command;
    ctu_can_fd_log_capt_event_1;
    ctu_can_fd_log_capt_event_2 ].

(** Every field-value enumeration of the header, in declaration order. *)
Definition field_enums : list field_enum :=
  [ ctu_can_fd_device_id_device_id;
    ctu_can_fd_mode_lom;
    ctu_can_fd_mode_stm;
    ctu_can_fd_mode_afm;
    ctu_can_fd_mode_fde;
    ctu_can_fd_mode_rtrp;
    ctu_can_fd_mode_tsm;
    ctu_can_fd_mode_acf;
    ctu_can_fd_settings_rtrle;
    ctu_can_fd_settings_ilbp;
    ctu_can_fd_settings_ena;
    ctu_can_fd_settings_nisofd;
    ctu_can_fd_rx_settings_rtsop;
    ctu_can_fd_tx_status_tx1s;
    ctu_can_fd_err_capt_err_pos;
    ctu_can_fd_err_capt_err_type;
    ctu_can_fd_alc_alc_id_field;
    ctu_can_fd_ssp_cfg_ssp_src;
    ctu_can_fd_log_capt_event_2_evnt_type;
    ctu_can_fd_log_capt_event_2_evnt_det;
    ctu_can_fd_log_capt_event_2_evnt_dea ].

(** ** Identifiers *)

(** Union, structure and enumeration tags spell the register names in lower
    case; the register enumerators prefix them with [CTU_CAN_FD_]. *)
Definition lower_ascii (c : ascii) : ascii :=
  let n := nat_of_ascii c in
  if ((65 <=? n) && (n <=? 90))%nat then ascii_of_nat (n + 32) else c.

Fixpoint lower (s : string) : string :=
  match s with
  | EmptyString => EmptyString
  | String c s' => String (lower_ascii c) (lower s')
  end.

Definition reg_of_name (n : string) : option ctu_can_fd_can_registers :=
  find (fun r => String.eqb (reg_name r) n) all_registers.

(** The register a member comment such as [/* MODE */] refers to. *)
Definition reg_of_tag (t : string) : option ctu_can_fd_can_registers :=
  reg_of_name ("CTU_CAN_FD_" ++ t).

(** Padding members are called [reserved_<bit>] or [reserved_<msb>_<lsb>]. *)
Definition is_reserved (name : string) : bool := prefix "reserved_" name.

Definition digit_of (c : ascii) : option Z :=
  let n := nat_of_ascii c in
  if ((48 <=? n) && (n <=? 57))%nat then Some (Z.of_nat (n - 48)) else None.

(** Reads a (possibly empty) run of decimal digits; returns the number read,
    if any digit was, and the rest of the string. *)
Fixpoint read_digits (acc : option Z) (s : string) : option Z * string :=
  match s with
  | EmptyString => (acc, s)
  | String c s' =>
      match digit_of c with
      | Some d =>
          read_digits (Some (10 * match acc with Some a => a | None => 0 end + d)) s'
      | None => (acc, s)
      end
  end.

(** The bit range [(msb, lsb)] a reserved member's name announces. *)
Definition reserved_bits (name : string) : option (Z * Z) :=
  if is_reserved name then
    match read_digits None (substring 9 (String.length name - 9) name) with
    | (Some hi, EmptyString) => Some (hi, hi)
    | (Some hi, String "_" rest) =>
        match read_digits None rest with
        | (Some lo, EmptyString) => Some (hi, lo)
        | _ => None
        end
    | _ => None
    end
  else None.

(** ** Member lists and their place in the word *)

Definition members (gs : list (string * list bitfield)) : list bitfield :=
  flat_map snd gs.

(** The member list the preprocessor keeps: the first branch when
    [__LITTLE_ENDIAN_BITFIELD] is defined, the [#else] branch otherwise. *)
Definition struct_members (little : bool) (b : struct_body) : list bitfield :=
  match b with
  | Conditional le be => if little then members le else be
  | Unconditional fs => members fs
  end.

(** The register tags of a structure, in the order of its comments. *)
Definition struct_tags (b : struct_body) : list string :=
  match b with
  | Conditional le _ => map fst le
  | Unconditional fs => map fst fs
  end.

(** Tagged member runs (only the first branch of a guarded structure is
    commented). *)
Definition struct_groups (b : struct_body) : list (string * list bitfield) :=
  match b with
  | Conditional le _ => le
  | Unconditional fs => fs
  end.

Definition total_width (fs : list bitfield) : Z :=
  fold_right (fun f acc => bf_width f + acc) 0 fs.

(** A member placed in the word: [s_width] bits from bit [s_lsb] upwards. *)
Record slot : Set := Slot { s_name : string; s_lsb : Z; s_width : Z }.

(** Little-endian bitfield order: the first member takes the least
    significant bits, each next member the bits above. *)
Fixpoint place_lsb (off : Z) (fs : list bitfield) : list slot :=
  match fs with
  | [] => []
  | f :: fs' => Slot (bf_name f) off (bf_width f) :: place_lsb (off + bf_width f) fs'
  end.

(** Big-endian bitfield order: the first member takes the most significant
    bits below [top], each next member the bits below. *)
Fixpoint place_msb (top : Z) (fs : list bitfield) : list slot :=
  match fs with
  | [] => []
  | f :: fs' =>
      Slot (bf_name f) (top - bf_width f) (bf_width f) :: place_msb (top - bf_width f) fs'
  end.

(** The layout of [s] inside [u32] for a target of the given bitfield
    order. *)
Definition layout (little : bool) (u : reg_union) : list slot :=
  if little then place_lsb 0 (struct_members true (u_body u))
  else place_msb 32 (struct_members false (u_body u)).

Definition in_slot (n : Z) (s : slot) : bool :=
  (s_lsb s <=? n) && (n <? s_lsb s + s_width s).

Definition bitfield_eqb (a b : bitfield) : bool :=
  String.eqb (bf_name a) (bf_name b) && (bf_width a =? bf_width b).

(** ** Access through the union *)

(** [x = u.s.f] after [u.u32 = v]. *)
Definition get_field (v : Z) (s : slot) : Z :=
  Z.land (Z.shiftr v (s_lsb s)) (Z.ones (s_width s)).

(** [u.s.f = x] on a word holding [v]: the value is truncated to the
    member's width and replaces the member's bits; the other bits stay. *)
Definition set_field (v : Z) (s : slot) (x : Z) : Z :=
  Z.lor (Z.land v (Z.lnot (Z.shiftl (Z.ones (s_width s)) (s_lsb s))))
        (Z.shiftl (Z.land x (Z.ones (s_width s))) (s_lsb s)).

Definition read_fields (v : Z) (ss : list slot) : list Z := map (get_field v) ss.

Fixpoint write_fields (v : Z) (ss : list slot) (xs : list Z) : Z :=
  match ss, xs with
  | s :: ss', x :: xs' => write_fields (set_field v s x) ss' xs'
  | _, _ => v
  end.

(** Field values put back at their positions: [(x1 << lsb1) | (x2 << lsb2) | ...]. *)
Fixpoint assemble (ss : list slot) (xs : list Z) : Z :=
  match ss, xs with
  | s :: ss', x :: xs' => Z.lor (Z.shiftl x (s_lsb s)) (assemble ss' xs')
  | _, _ => 0
  end.

(** The values of a [uint32_t]. *)
Definition is_u32 (v : Z) : Prop := 0 <= v < 2 ^ 32.

(** A value fits a member when storing it loses no bit. *)
Definition fits (s : slot) (x : Z) : Prop := 0 <= x < 2 ^ s_width s.

(** ** Layouts that tile the word *)

(** A slot lies inside the 32-bit word and is not empty. *)
Definition slot_ok (s : slot) : Prop :=
  0 <= s_lsb s /\ 0 < s_width s /\ s_lsb s + s_width s <= 32.

Definition slots_disjoint (a b : slot) : Prop :=
  s_lsb a + s_width a <= s_lsb b \/ s_lsb b + s_width b <= s_lsb a.

Definition covers32 (ss : list slot) : Prop :=
  forall n, 0 <= n < 32 -> existsb (in_slot n) ss = true.

(** Every bit of the word belongs to exactly one slot. *)
Definition tiles_word (ss : list slot) : Prop :=
  Forall slot_ok ss /\ ForallOrdPairs slots_disjoint ss /\ covers32 ss.

Definition positive_widths (fs : list bitfield) : Prop :=
  Forall (fun f => 0 < bf_width f) fs.

(** Members that are not padding. *)
Definition named_slots (little : bool) (u : reg_union) : list slot :=
  filter (fun s => negb (is_reserved (s_name s))) (layout little u).

Definition reserved_slots (little : bool) (u : reg_union) : list slot :=
  filter (fun s => is_reserved (s_name s)) (layout little u).

(** Position and extent of a slot, its name left out. *)
Definition extent (s : slot) : Z * Z := (s_lsb s, s_width s).

(** ** Registers and the words that hold them *)

(** The registers a union describes: those its member comments name. *)
Definition union_registers (u : reg_union) : list ctu_can_fd_can_registers :=
  flat_map (fun t => match reg_of_tag t with Some r => [r] | None => [] end)
           (struct_tags (u_body u)).

(** The byte offset at which a union is read or written: the offset of the
    first register it describes.  The word spans [union_base, union_base + 4). *)
Definition union_base (u : reg_union) : option Z :=
  match struct_tags (u_body u) with
  | t :: _ => option_map reg_offset (reg_of_tag t)
  | [] => None
  end.

Definition spans_disjoint (b1 b2 : Z) : Prop := b1 + 4 <= b2 \/ b2 + 4 <= b1.

(** The 32-bit word a register starts in. *)
Definition word_of (r : ctu_can_fd_can_registers) : Z := reg_offset r / 4.

Definition reg_eqb (r1 r2 : ctu_can_fd_can_registers) : bool :=
  reg_offset r1 =? reg_offset r2.

Definition decimal (n : Z) : string := NilZero.string_of_uint (N.to_uint (Z.to_N n)).

(** The enumerator [CTU_CAN_FD_TXTB<n>_DATA_<k>], if the header has it. *)
Definition txtb_data (n k : Z) : option ctu_can_fd_can_registers :=
  reg_of_name ("CTU_CAN_FD_TXTB" ++ decimal n ++ "_DATA_" ++ decimal k).

(** ** Field-value enumerations *)

(** An enumeration is called [ctu_can_fd_<register>_<member>]; these are the
    members it can be meant for. *)
Definition enum_fields (e : field_enum) : list bitfield :=
  flat_map
    (fun u =>
       flat_map
         (fun g =>
            filter
              (fun f => String.eqb ("ctu_can_fd_" ++ lower (fst g) ++ "_" ++ bf_name f)
                                   (e_name e))
              (snd g))
         (struct_groups (u_body u)))
    register_unions.

Definition enum_value (e : field_enum) (name : string) : option Z :=
  option_map snd (find (fun c => String.eqb (fst c) name) (e_consts e)).

Definition names_of_value (e : field_enum) (v : Z) : list string :=
  map fst (filter (fun c => snd c =? v) (e_consts e)).

Definition enum_names (e : field_enum) : list string := map fst (e_consts e).
Definition enum_values (e : field_enum) : list Z := map snd (e_consts e).

(** ** Decision procedures *)

Section ListChecks.
Context {A : Type}.

Fixpoint list_eqb (eqb : A -> A -> bool) (l1 l2 : list A) : bool :=
  match l1, l2 with
  | [], [] => true
  | a :: l1', b :: l2' => eqb a b && list_eqb eqb l1' l2'
  | _, _ => false
  end.

(** [test] holds of every pair taken in list order. *)
Fixpoint pairwiseb (test : A -> A -> bool) (l : list A) : bool :=
  match l with
  | [] => true
  | a :: l' => forallb (test a) l' && pairwiseb test l'
  end.
End ListChecks.

Definition struct_okb (fs : list bitfield) : bool :=
  forallb (fun f => 0 <? bf_width f) fs && (total_width fs =? 32).

Definition mirroredb (b : struct_body) : bool :=
  match b with
  | Conditional le be => list_eqb bitfield_eqb be (rev (members le))
  | Unconditional _ => true
  end.

Definition reserved_okb (s : slot) : bool :=
  match reserved_bits (s_name s) with
  | Some (hi, lo) => (s_lsb s =? lo) && (s_lsb s + s_width s - 1 =? hi)
  | None => negb (is_reserved (s_name s))
  end.

Definition mem_reg (r : ctu_can_fd_can_registers) (l : list ctu_can_fd_can_registers) : bool :=
  existsb (reg_eqb r) l.

Definition union_span_okb (u : reg_union) : bool :=
  match union_base u with
  | Some b =>
      (b mod 4 =? 0)
      && (List.length (union_registers u) =? List.length (struct_tags (u_body u)))%nat
      && forallb (fun r => (b <=? reg_offset r) && (reg_offset r <? b + 4)) (union_registers u)
  | None => false
  end.

Definition spans_disjointb (u1 u2 : reg_union) : bool :=
  match union_base u1, union_base u2 with
  | Some b1, Some b2 => (b1 + 4 <=? b2) || (b2 + 4 <=? b1)
  | _, _ => false
  end.

Definition packed_okb (r1 r2 : ctu_can_fd_can_registers) : bool :=
  reg_eqb r1 r2
  || negb (word_of r1 =? word_of r2)
  || existsb (fun u => mem_reg r1 (union_registers u) && mem_reg r2 (union_registers u))
             register_unions.

Definition enum_fitsb (e : field_enum) : bool :=
  match enum_fields e with
  | [f] => forallb (fun c => (0 <=? snd c) && (snd c <? 2 ^ bf_width f)) (e_consts e)
  | _ => false
  end.

(** ** Members by name *)

(** The slot of member [name] of [u.s], if the structure has the member. *)
Definition member_slot (little : bool) (u : reg_union) (name : string) : option slot :=
  find (fun s => String.eqb (s_name s) name) (layout little u).

(** [u.s.name] read from a word holding [v]; [None] when [s] has no such
    member. *)
Definition read_member (little : bool) (u : reg_union) (name : string) (v : Z)
  : option Z :=
  option_map (get_field v) (member_slot little u name).

(** The word after [u.s.name = x] on a word holding [v]. *)
Definition write_member (little : bool) (u : reg_union) (name : string) (x v : Z)
  : option Z :=
  option_map (fun s => set_field v s x) (member_slot little u name).

Definition slot_eqb (a b : slot) : bool :=
  String.eqb (s_name a) (s_name b) && (s_lsb a =? s_lsb b) && (s_width a =? s_width b).

(** The named members of the whole header, each with the tag of its union. *)
Definition header_members : list (string * slot) :=
  flat_map (fun u => map (pair (u_name u)) (named_slots true u)) register_unions.

(** ** Enumerators of the header *)

(** C keeps all enumerators of a translation unit in one name space. *)
Definition header_enumerators : list string :=
  (map reg_name all_registers ++ flat_map enum_names field_enums)%list.

(** The tags of the header's enumerations and unions: that of the register
    enumeration, those of the unions, those of the field-value enumerations. *)
Definition header_tags : list string :=
  ("ctu_can_fd_can_registers" :: map u_name register_unions ++ map e_name field_enums)%list.

(** ** Registers inside their word *)

(** The unions whose comments name a register. *)
Notation unions_of r :=
  (filter (fun u => mem_reg r (union_registers u)) register_unions).

(** The tagged member runs of the first branch, placed from [off] upwards. *)
Fixpoint place_groups (off : Z) (gs : list (string * list bitfield))
  : list (string * list slot) :=
  match gs with
  | [] => []
  | g :: gs' =>
      (fst g, place_lsb off (snd g)) :: place_groups (off + total_width (snd g)) gs'
  end.

(** The bits of the word at [base] that belong to the register tagged [t]:
    from the register's byte offset up to the byte offset of the register
    tagged next, or to the end of the word. *)
Definition lane_lo (base : Z) (t : string) : Z :=
  match reg_of_tag t with
  | Some r => 8 * (reg_offset r - base)
  | None => 0
  end.

Fixpoint lanes (base : Z) (ts : list string) : list (string * (Z * Z)) :=
  match ts with
  | [] => []
  | t :: ts' =>
      (t, (lane_lo base t, match ts' with t' :: _ => lane_lo base t' | [] => 32 end))
        :: lanes base ts'
  end.

(** Each tagged run of a union with the bits of its register. *)
Definition register_lanes (u : reg_union) : list (string * (Z * Z) * list slot) :=
  match union_base u with
  | Some b =>
      combine (lanes b (struct_tags (u_body u)))
              (map snd (place_groups 0 (struct_groups (u_body u))))
  | None => []
  end.

(** The bytes of transmit buffer [n], from [DATA_1] to the end of [DATA_20]. *)
Definition txtb_region (n : Z) : option (Z * Z) :=
  match txtb_data n 1, txtb_data n 20 with
  | Some d1, Some d20 => Some (reg_offset d1, reg_offset d20 + 4)
  | _, _ => None
  end.

Definition is_txtb_data (r : ctu_can_fd_can_registers) : bool :=
  existsb (fun n => existsb (fun k => match txtb_data n k with
                                      | Some r' => reg_eqb r r'
                                      | None => false
                                      end) [1; 2; 20]) [1; 2; 3; 4].

Fixpoint join (sep : string) (l : list string) : string :=
  match l with
  | [] => ""
  | [a] => a
  | a :: l' => a ++ sep ++ join sep l'
  end.

(** * Supporting lemmas *)

(** ** Soundness of the decision procedures *)

Section ListChecksSound.
Context {A : Type}.

Lemma list_eqb_eq (eqb : A -> A -> bool) :
  (forall a b, eqb a b = true -> a = b) ->
  forall l1 l2, list_eqb eqb l1 l2 = true -> l1 = l2.
Proof.
  intros Heq. induction l1 as [|a l1 IH]; intros [|b l2] H; simpl in H;
    try discriminate; [reflexivity|].
  apply andb_true_iff in H as [Hab Hl]. f_equal; auto.
Qed.

Lemma pairwiseb_sound (test : A -> A -> bool) l :
  pairwiseb test l = true -> ForallOrdPairs (fun a b => test a b = true) l.
Proof.
  induction l as [|a l IH]; simpl; intros H; constructor.
  - apply andb_true_iff in H as [H _]. apply Forall_forall.
    intros b Hb. exact (proj1 (forallb_forall _ _) H b Hb).
  - apply IH. apply andb_true_iff in H as [_ H]. exact H.
Qed.

Lemma ForallOrdPairs_impl (R S : A -> A -> Prop) l :
  (forall a b, R a b -> S a b) -> ForallOrdPairs R l -> ForallOrdPairs S l.
Proof.
  intros HRS. induction 1 as [|a l Ha _ IH]; constructor; [|exact IH].
  revert Ha. apply Forall_impl. apply HRS.
Qed.

Lemma ForallOrdPairs_snoc (R : A -> A -> Prop) l a :
  ForallOrdPairs R l -> Forall (fun b => R b a) l -> ForallOrdPairs R (l ++ [a]).
Proof.
  induction 1 as [|b l Hb _ IH]; intros Ha; simpl.
  - repeat constructor.
  - inversion Ha as [|? ? Hba Ha']; subst. constructor; [|exact (IH Ha')].
    apply Forall_app. split; [exact Hb | repeat constructor; exact Hba].
Qed.

Lemma ForallOrdPairs_rev (R : A -> A -> Prop) l :
  (forall a b, R a b -> R b a) -> ForallOrdPairs R l -> ForallOrdPairs R (rev l).
Proof.
  intros Hsym. induction 1 as [|a l Ha _ IH]; simpl; [constructor|].
  apply ForallOrdPairs_snoc; [exact IH|].
  apply Forall_rev. revert Ha. apply Forall_impl. intros b. apply Hsym.
Qed.

Lemma NoDup_pairwiseb (neqb : A -> A -> bool) l :
  (forall a b, neqb a b = true -> a <> b) -> pairwiseb neqb l = true -> NoDup l.
Proof.
  intros Hneq H. apply NoDup_iff_ForallOrdPairs.
  apply (ForallOrdPairs_impl (fun a b => neqb a b = true)); [exact Hneq|].
  apply pairwiseb_sound, H.
Qed.

Lemma existsb_rev (f : A -> bool) l : existsb f (rev l) = existsb f l.
Proof.
  induction l as [|a l IH]; simpl; [reflexivity|].
  rewrite existsb_app, IH. simpl. rewrite orb_false_r. apply orb_comm.
Qed.
End ListChecksSound.

Lemma NoDup_Z_checked (l : list Z) :
  pairwiseb (fun a b => negb (a =? b)) l = true -> NoDup l.
Proof.
  apply NoDup_pairwiseb. intros a b H. apply negb_true_iff, Z.eqb_neq in H. exact H.
Qed.

Lemma NoDup_string_checked (l : list string) :
  pairwiseb (fun a b => negb (String.eqb a b)) l = true -> NoDup l.
Proof.
  apply NoDup_pairwiseb. intros a b H. apply negb_true_iff, String.eqb_neq in H. exact H.
Qed.

Lemma bitfield_eqb_eq a b : bitfield_eqb a b = true -> a = b.
Proof.
  destruct a as [na wa], b as [nb wb]. unfold bitfield_eqb. simpl. intros H.
  apply andb_true_iff in H as [Hn Hw].
  apply String.eqb_eq in Hn. apply Z.eqb_eq in Hw. congruence.
Qed.

(** ** The two bitfield orders *)

Lemma total_width_app fs gs : total_width (fs ++ gs) = total_width fs + total_width gs.
Proof. induction fs as [|f fs IH]; simpl; [reflexivity | rewrite IH; lia]. Qed.

Lemma total_width_rev fs : total_width (rev fs) = total_width fs.
Proof.
  induction fs as [|f fs IH]; simpl; [reflexivity|].
  rewrite total_width_app, IH. simpl. lia.
Qed.

Lemma place_msb_app fs gs top :
  place_msb top (fs ++ gs) = place_msb top fs ++ place_msb (top - total_width fs) gs.
Proof.
  revert top. induction fs as [|f fs IH]; intros top; simpl.
  - f_equal. lia.
  - rewrite IH. do 3 f_equal. lia.
Qed.

(** Allocating the reversed member list from the top bit downwards puts every
    member where allocating the list itself from the bottom bit upwards does. *)
Lemma place_msb_rev fs off :
  place_msb (off + total_width fs) (rev fs) = rev (place_lsb off fs).
Proof.
  revert off. induction fs as [|f fs IH]; intros off; simpl; [reflexivity|].
  rewrite place_msb_app, total_width_rev. simpl.
  replace (off + (bf_width f + total_width fs)) with (off + bf_width f + total_width fs) by lia.
  rewrite IH. do 3 f_equal. lia.
Qed.

Lemma place_lsb_bounds fs off s :
  positive_widths fs -> In s (place_lsb off fs) ->
  off <= s_lsb s /\ 0 < s_width s /\ s_lsb s + s_width s <= off + total_width fs.
Proof.
  intros Hpos. revert off.
  induction Hpos as [|f fs Hf Hfs IH]; intros off; simpl; [tauto|].
  assert (0 <= total_width fs).
  { clear - Hfs. induction Hfs; simpl; lia. }
  intros [<-|Hs]; simpl; [lia|].
  specialize (IH _ Hs). lia.
Qed.

Lemma place_lsb_disjoint fs off :
  positive_widths fs -> ForallOrdPairs slots_disjoint (place_lsb off fs).
Proof.
  intros Hpos. revert off.
  induction Hpos as [|f fs Hf Hfs IH]; intros off; simpl; constructor; [|apply IH].
  apply Forall_forall. intros s Hs.
  apply (place_lsb_bounds fs _ s Hfs) in Hs. left. simpl. lia.
Qed.

Lemma place_lsb_covers fs off n :
  off <= n < off + total_width fs -> existsb (in_slot n) (place_lsb off fs) = true.
Proof.
  revert off. induction fs as [|f fs IH]; intros off Hn; simpl in *; [lia|].
  destruct (Z.lt_ge_cases n (off + bf_width f)) as [Hlt|Hge].
  - unfold in_slot at 1. simpl.
    destruct (Z.leb_spec off n), (Z.ltb_spec n (off + bf_width f)); lia || reflexivity.
  - rewrite IH by lia. apply orb_true_r.
Qed.

Lemma slots_disjoint_sym a b : slots_disjoint a b -> slots_disjoint b a.
Proof. unfold slots_disjoint. tauto. Qed.

Lemma tiles_word_rev ss : tiles_word ss -> tiles_word (rev ss).
Proof.
  intros (Hok & Hd & Hc). repeat split.
  - apply Forall_rev, Hok.
  - apply ForallOrdPairs_rev; [exact slots_disjoint_sym | exact Hd].
  - intros n Hn. rewrite existsb_rev. apply Hc, Hn.
Qed.

(** A member list with non-empty members whose widths add up to 32 tiles the
    word when allocated from bit 0 upwards ... *)
Theorem place_lsb_tiles fs :
  positive_widths fs -> total_width fs = 32 -> tiles_word (place_lsb 0 fs).
Proof.
  intros Hpos Htot. repeat split.
  - apply Forall_forall. intros s Hs.
    apply (place_lsb_bounds fs 0 s Hpos) in Hs. unfold slot_ok. lia.
  - apply place_lsb_disjoint, Hpos.
  - intros n Hn. apply place_lsb_covers. lia.
Qed.

(** ... and when allocated from bit 31 downwards. *)
Theorem place_msb_tiles fs :
  positive_widths fs -> total_width fs = 32 -> tiles_word (place_msb 32 fs).
Proof.
  intros Hpos Htot.
  pose proof (place_msb_rev (rev fs) 0) as E.
  rewrite total_width_rev, rev_involutive, Htot in E. simpl in E. rewrite E.
  apply tiles_word_rev, place_lsb_tiles.
  - apply Forall_rev, Hpos.
  - rewrite total_width_rev. exact Htot.
Qed.

(** ** Reading and writing members through the union *)

Lemma testbit_u32_high v n : is_u32 v -> 32 <= n -> Z.testbit v n = false.
Proof.
  intros Hv Hn. rewrite <- (Z.mod_small v (2 ^ 32)) by exact Hv.
  apply Z.mod_pow2_bits_high. lia.
Qed.

Lemma u32_of_bits v : (forall n, 32 <= n -> Z.testbit v n = false) -> is_u32 v.
Proof.
  intros H. assert (E : Z.land v (Z.ones 32) = v).
  { apply Z.bits_inj'. intros n Hn. rewrite Z.land_spec, Z.testbit_ones_nonneg by lia.
    destruct (Z.ltb_spec n 32) as [|Hge]; [apply andb_true_r|].
    rewrite (H n Hge). reflexivity. }
  rewrite Z.land_ones in E by lia. unfold is_u32. rewrite <- E.
  apply Z.mod_pos_bound. lia.
Qed.

Lemma testbit_fits_high s x m : 0 <= s_width s -> fits s x -> s_width s <= m -> Z.testbit x m = false.
Proof.
  intros Hw Hx Hm. rewrite <- (Z.mod_small x (2 ^ s_width s)) by exact Hx.
  apply Z.mod_pow2_bits_high. lia.
Qed.

Lemma in_slot_spec n s : in_slot n s = true <-> s_lsb s <= n < s_lsb s + s_width s.
Proof. unfold in_slot. rewrite andb_true_iff, Z.leb_le, Z.ltb_lt. tauto. Qed.

Lemma in_slot_rel n s : s_lsb s <= n -> (n - s_lsb s <? s_width s) = in_slot n s.
Proof.
  intros H. unfold in_slot.
  destruct (Z.leb_spec (s_lsb s) n); [simpl | lia].
  destruct (Z.ltb_spec (n - s_lsb s) (s_width s)), (Z.ltb_spec n (s_lsb s + s_width s));
    reflexivity || lia.
Qed.

Lemma in_slot_below n s : n < s_lsb s -> in_slot n s = false.
Proof. intros H. unfold in_slot. destruct (Z.leb_spec (s_lsb s) n); [lia | reflexivity]. Qed.

(** A member read returns the bits of its slot, moved down to bit 0. *)
Lemma testbit_get_field v s m :
  0 <= s_width s -> 0 <= m ->
  Z.testbit (get_field v s) m = Z.testbit v (m + s_lsb s) && (m <? s_width s).
Proof.
  intros Hw Hm. unfold get_field.
  rewrite Z.land_spec, Z.shiftr_spec, Z.testbit_ones_nonneg by lia. reflexivity.
Qed.

(** A member value moved back to its position is the word masked to the slot. *)
Lemma testbit_shiftl_get v s n :
  0 <= s_width s -> 0 <= n ->
  Z.testbit (Z.shiftl (get_field v s) (s_lsb s)) n = in_slot n s && Z.testbit v n.
Proof.
  intros Hw Hn. rewrite Z.shiftl_spec by exact Hn.
  destruct (Z.le_gt_cases (s_lsb s) n) as [Hle|Hlt].
  - rewrite testbit_get_field, in_slot_rel by lia.
    replace (n - s_lsb s + s_lsb s) with n by lia. apply andb_comm.
  - rewrite Z.testbit_neg_r, in_slot_below by lia. reflexivity.
Qed.

(** A member store changes the bits of its slot and no other. *)
Lemma testbit_set_field v s x n :
  0 <= s_width s -> 0 <= n ->
  Z.testbit (set_field v s x) n =
  if in_slot n s then Z.testbit x (n - s_lsb s) else Z.testbit v n.
Proof.
  intros Hw Hn. unfold set_field.
  rewrite Z.lor_spec, Z.land_spec, Z.lnot_spec, !Z.shiftl_spec, Z.land_spec by lia.
  destruct (Z.le_gt_cases (s_lsb s) n) as [Hle|Hlt].
  - rewrite !Z.testbit_ones_nonneg, in_slot_rel by lia.
    destruct (in_slot n s); simpl.
    + rewrite andb_false_r, andb_true_r. reflexivity.
    + rewrite andb_true_r, andb_false_r, orb_false_r. reflexivity.
  - rewrite !(Z.testbit_neg_r _ (n - s_lsb s)), in_slot_below by lia. simpl.
    rewrite andb_true_r, orb_false_r. reflexivity.
Qed.

Lemma get_field_fits v s : 0 <= s_width s -> fits s (get_field v s).
Proof.
  intros Hw. unfold fits, get_field. rewrite Z.land_ones by exact Hw.
  apply Z.mod_pos_bound. lia.
Qed.

Lemma testbit_assemble_read v ss n :
  Forall slot_ok ss -> 0 <= n ->
  Z.testbit (assemble ss (read_fields v ss)) n = existsb (in_slot n) ss && Z.testbit v n.
Proof.
  intros Hok Hn. induction Hok as [|s ss Hs _ IH]; simpl.
  - apply Z.testbit_0_l.
  - destruct Hs as (_ & Hw & _).
    rewrite Z.lor_spec, IH, testbit_shiftl_get by lia.
    symmetry. apply andb_orb_distrib_l.
Qed.

Lemma testbit_write_read u v ss n :
  Forall slot_ok ss -> 0 <= n ->
  Z.testbit (write_fields u ss (read_fields v ss)) n =
  if existsb (in_slot n) ss then Z.testbit v n else Z.testbit u n.
Proof.
  intros Hok Hn. revert u. induction Hok as [|s ss Hs _ IH]; intros u; simpl.
  - reflexivity.
  - destruct Hs as (_ & Hw & _). rewrite IH.
    destruct (existsb (in_slot n) ss); [rewrite orb_true_r; reflexivity | rewrite orb_false_r].
    rewrite testbit_set_field by lia.
    destruct (in_slot n s) eqn:E; [|reflexivity].
    apply in_slot_spec in E. rewrite testbit_get_field by lia.
    replace (n - s_lsb s + s_lsb s) with n by lia.
    destruct (Z.ltb_spec (n - s_lsb s) (s_width s)); [apply andb_true_r | lia].
Qed.

Lemma existsb_in_slot_high ss n : Forall slot_ok ss -> 32 <= n -> existsb (in_slot n) ss = false.
Proof.
  intros Hok Hn. induction Hok as [|s ss Hs _ IH]; simpl; [reflexivity|].
  rewrite IH, orb_false_r. destruct (in_slot n s) eqn:E; [|reflexivity].
  apply in_slot_spec in E. destruct Hs as (_ & _ & Hs). lia.
Qed.

(** Reading every member of a word and putting the values back rebuilds the
    word, whenever the slots cover it. *)
Theorem assemble_read_fields ss v :
  Forall slot_ok ss -> covers32 ss -> is_u32 v ->
  assemble ss (read_fields v ss) = v.
Proof.
  intros Hok Hc Hv. apply Z.bits_inj'. intros n Hn.
  rewrite testbit_assemble_read by assumption.
  destruct (Z.lt_ge_cases n 32) as [Hlt|Hge].
  - rewrite Hc by lia. reflexivity.
  - rewrite (testbit_u32_high v n) by assumption. apply andb_false_r.
Qed.

(** Storing the members read from [v] over any word [u] turns it into [v]. *)
Theorem write_read_fields ss u v :
  Forall slot_ok ss -> covers32 ss -> is_u32 u -> is_u32 v ->
  write_fields u ss (read_fields v ss) = v.
Proof.
  intros Hok Hc Hu Hv. apply Z.bits_inj'. intros n Hn.
  rewrite testbit_write_read by assumption.
  destruct (Z.lt_ge_cases n 32) as [Hlt|Hge].
  - rewrite Hc by lia. reflexivity.
  - rewrite existsb_in_slot_high, !testbit_u32_high by assumption. reflexivity.
Qed.

Lemma get_set_same v s x :
  0 <= s_lsb s -> 0 <= s_width s -> fits s x -> get_field (set_field v s x) s = x.
Proof.
  intros Hl Hw Hx. apply Z.bits_inj'. intros m Hm.
  rewrite testbit_get_field, testbit_set_field by lia.
  destruct (Z.ltb_spec m (s_width s)) as [Hlt|Hge].
  - assert (E : in_slot (m + s_lsb s) s = true) by (apply in_slot_spec; lia).
    rewrite E, andb_true_r. f_equal. lia.
  - rewrite (testbit_fits_high s x m) by assumption. apply andb_false_r.
Qed.

Lemma get_set_other v s t x :
  0 <= s_lsb s -> 0 <= s_width s -> 0 <= s_width t -> slots_disjoint s t ->
  get_field (set_field v t x) s = get_field v s.
Proof.
  intros Hl Hw Hwt Hd. apply Z.bits_inj'. intros m Hm.
  rewrite !testbit_get_field, testbit_set_field by lia.
  destruct (Z.ltb_spec m (s_width s)) as [Hlt|Hge]; [|rewrite !andb_false_r; reflexivity].
  destruct (in_slot (m + s_lsb s) t) eqn:E; [|reflexivity].
  apply in_slot_spec in E. unfold slots_disjoint in Hd. lia.
Qed.

Lemma get_write_fields_other v s ss xs :
  slot_ok s -> Forall slot_ok ss -> Forall (slots_disjoint s) ss ->
  get_field (write_fields v ss xs) s = get_field v s.
Proof.
  intros Hs Hok Hd. revert v xs.
  induction Hok as [|t ss Ht _ IH]; intros v xs; [reflexivity|].
  inversion Hd as [|? ? Hdt Hd']; subst. destruct xs as [|x xs]; [reflexivity|]. simpl.
  rewrite (IH Hd'). destruct Hs as (? & ? & _), Ht as (_ & ? & _).
  apply get_set_other; lia || assumption.
Qed.

(** Members stored into disjoint slots are read back unchanged. *)
Theorem read_write_fields ss v xs :
  Forall slot_ok ss -> ForallOrdPairs slots_disjoint ss -> Forall2 fits ss xs ->
  read_fields (write_fields v ss xs) ss = xs.
Proof.
  intros Hok Hd Hx. revert v Hok Hd.
  induction Hx as [|s x ss xs Hsx _ IH]; intros v Hok Hd; [reflexivity|].
  inversion Hok as [|? ? Hs Hok']; subst. inversion Hd as [|? ? Hds Hd']; subst.
  simpl. rewrite (get_write_fields_other _ s ss xs Hs Hok' Hds).
  destruct Hs as (? & ? & _). rewrite get_set_same by lia || assumption.
  f_equal. apply IH; assumption.
Qed.

Lemma write_fields_u32 ss v xs : Forall slot_ok ss -> is_u32 v -> is_u32 (write_fields v ss xs).
Proof.
  intros Hok. revert v xs. induction Hok as [|s ss Hs _ IH]; intros v xs Hv; [destruct xs; exact Hv|].
  destruct xs as [|x xs]; [exact Hv|]. simpl. apply IH.
  apply u32_of_bits. intros n Hn. destruct Hs as (? & ? & ?).
  rewrite testbit_set_field by lia.
  destruct (in_slot n s) eqn:E; [apply in_slot_spec in E; lia|].
  apply testbit_u32_high; assumption.
Qed.

(** Once every member is stored, nothing of the previous word is left. *)
Theorem write_fields_assemble ss v xs :
  Forall slot_ok ss -> ForallOrdPairs slots_disjoint ss -> covers32 ss ->
  is_u32 v -> Forall2 fits ss xs ->
  write_fields v ss xs = assemble ss xs.
Proof.
  intros Hok Hd Hc Hv Hx.
  rewrite <- (assemble_read_fields ss (write_fields v ss xs) Hok Hc (write_fields_u32 ss v xs Hok Hv)).
  rewrite read_write_fields by assumption. reflexivity.
Qed.

(** ** The member lists of the header *)

Lemma struct_okb_sound fs :
  struct_okb fs = true -> positive_widths fs /\ total_width fs = 32.
Proof.
  unfold struct_okb. intros H. apply andb_true_iff in H as [Hpos Htot]. split.
  - apply Forall_forall. intros f Hf.
    apply Z.ltb_lt. exact (proj1 (forallb_forall _ _) Hpos f Hf).
  - apply Z.eqb_eq, Htot.
Qed.

Lemma unions_checked :
  forallb (fun u => struct_okb (struct_members true (u_body u))
                    && struct_okb (struct_members false (u_body u))
                    && mirroredb (u_body u)
                    && forallb reserved_okb (layout true u)
                    && forallb reserved_okb (layout false u))
          register_unions = true.
Proof. vm_compute. reflexivity. Qed.

Lemma unions_checked_at u :
  In u register_unions ->
  (forall little, struct_okb (struct_members little (u_body u)) = true)
  /\ mirroredb (u_body u) = true
  /\ (forall little, forallb reserved_okb (layout little u) = true).
Proof.
  intros Hu. pose proof (proj1 (forallb_forall _ _) unions_checked u Hu) as H.
  cbv beta in H. do 4 (apply andb_true_iff in H as [H ?]).
  repeat split; try assumption; intros []; assumption.
Qed.

Lemma union_members_ok u little :
  In u register_unions ->
  positive_widths (struct_members little (u_body u))
  /\ total_width (struct_members little (u_body u)) = 32.
Proof.
  intros Hu. apply struct_okb_sound, (unions_checked_at u Hu).
Qed.

Lemma union_mirrored u le be :
  In u register_unions -> u_body u = Conditional le be -> be = rev (members le).
Proof.
  intros Hu Hb. destruct (unions_checked_at u Hu) as (_ & H & _).
  rewrite Hb in H. exact (list_eqb_eq _ bitfield_eqb_eq _ _ H).
Qed.

Lemma union_reserved_ok u little s :
  In u register_unions -> In s (layout little u) -> reserved_okb s = true.
Proof.
  intros Hu Hs. destruct (unions_checked_at u Hu) as (_ & _ & H).
  exact (proj1 (forallb_forall _ _) (H little) s Hs).
Qed.

Lemma layout_tiles u little : In u register_unions -> tiles_word (layout little u).
Proof.
  intros Hu. destruct (union_members_ok u little Hu) as [Hpos Htot].
  unfold layout. destruct little; [apply place_lsb_tiles | apply place_msb_tiles]; assumption.
Qed.

(** ** The register enumeration *)

Lemma reg_of_offset r :
  find (fun r' => reg_offset r' =? reg_offset r) all_registers = Some r.
Proof. destruct r; reflexivity. Qed.

Lemma reg_offset_inj r1 r2 : reg_offset r1 = reg_offset r2 -> r1 = r2.
Proof.
  intros H. pose proof (reg_of_offset r1) as H1. rewrite H, reg_of_offset in H1.
  congruence.
Qed.

Lemma all_registers_complete r : In r all_registers.
Proof. exact (proj1 (find_some _ _ (reg_of_offset r))). Qed.

Lemma all_registers_NoDup : NoDup all_registers.
Proof.
  apply (NoDup_map_inv reg_offset), NoDup_Z_checked. vm_compute. reflexivity.
Qed.

Lemma reg_eqb_eq r1 r2 : reg_eqb r1 r2 = true <-> r1 = r2.
Proof.
  unfold reg_eqb. rewrite Z.eqb_eq. split; [apply reg_offset_inj | congruence].
Qed.

Lemma mem_reg_In r l : mem_reg r l = true -> In r l.
Proof.
  unfold mem_reg. intros H. apply existsb_exists in H as (r' & Hin & Heq).
  apply reg_eqb_eq in Heq. congruence.
Qed.

Lemma union_span_okb_sound u :
  union_span_okb u = true ->
  exists b, union_base u = Some b /\ b mod 4 = 0
            /\ List.length (union_registers u) = List.length (struct_tags (u_body u))
            /\ forall r, In r (union_registers u) -> b <= reg_offset r < b + 4.
Proof.
  unfold union_span_okb. destruct (union_base u) as [b|]; [|discriminate].
  intros H. apply andb_true_iff in H as [H Hall]. apply andb_true_iff in H as [Hb Hlen].
  exists b. split; [reflexivity|]. split; [apply Z.eqb_eq, Hb|].
  split; [apply Nat.eqb_eq, Hlen|].
  intros r Hr. pose proof (proj1 (forallb_forall _ _) Hall r Hr) as H.
  apply andb_true_iff in H as [Hlo Hhi].
  apply Z.leb_le in Hlo. apply Z.ltb_lt in Hhi. lia.
Qed.

Lemma spans_disjointb_sound u1 u2 :
  spans_disjointb u1 u2 = true ->
  exists b1 b2, union_base u1 = Some b1 /\ union_base u2 = Some b2 /\ spans_disjoint b1 b2.
Proof.
  unfold spans_disjointb, spans_disjoint.
  destruct (union_base u1) as [b1|], (union_base u2) as [b2|]; try discriminate.
  intros H. exists b1, b2. repeat split.
  apply orb_true_iff in H. rewrite !Z.leb_le in H. exact H.
Qed.

Lemma packed_okb_sound r1 r2 :
  packed_okb r1 r2 = true -> r1 <> r2 -> word_of r1 = word_of r2 ->
  exists u, In u register_unions /\ In r1 (union_registers u) /\ In r2 (union_registers u).
Proof.
  unfold packed_okb. intros H Hne Hw.
  apply orb_true_iff in H as [H|H]; [apply orb_true_iff in H as [H|H]|].
  - apply reg_eqb_eq in H. contradiction.
  - apply negb_true_iff, Z.eqb_neq in H. contradiction.
  - apply existsb_exists in H as (u & Hu & H). apply andb_true_iff in H as [H1 H2].
    exists u. auto using mem_reg_In.
Qed.

Lemma read_fields_fit v ss : Forall slot_ok ss -> Forall2 fits ss (read_fields v ss).
Proof.
  induction 1 as [|s ss Hs _ IH]; simpl; constructor; [|exact IH].
  apply get_field_fits. destruct Hs as (_ & Hw & _). lia.
Qed.

Lemma names_of_value_spec e n v : In n (names_of_value e v) <-> In (n, v) (e_consts e).
Proof.
  unfold names_of_value. rewrite in_map_iff. split.
  - intros ([n' v'] & Hn & Hin). apply filter_In in Hin as [Hin Hv].
    simpl in *. apply Z.eqb_eq in Hv. congruence.
  - intros Hin. exists (n, v). split; [reflexivity|].
    apply filter_In. split; [exact Hin | apply Z.eqb_refl].
Qed.

(** * Properties of the register map *)

Lemma place_lsb_app fs gs off :
  place_lsb off (fs ++ gs) = place_lsb off fs ++ place_lsb (off + total_width fs) gs.
Proof.
  revert off. induction fs as [|f fs IH]; intros off; simpl.
  - f_equal. lia.
  - rewrite IH. do 3 f_equal. lia.
Qed.

(** Each member gets one slot, of its own name and width, in list order. *)
Lemma place_lsb_members fs off :
  map (fun s => BF (s_name s) (s_width s)) (place_lsb off fs) = fs.
Proof.
  revert off. induction fs as [|[n w] fs IH]; intros off; simpl; [reflexivity|].
  rewrite IH. reflexivity.
Qed.

Lemma place_msb_members fs top :
  map (fun s => BF (s_name s) (s_width s)) (place_msb top fs) = fs.
Proof.
  revert top. induction fs as [|[n w] fs IH]; intros top; simpl; [reflexivity|].
  rewrite IH. reflexivity.
Qed.

(** In little-endian order a member starts right above the members before it. *)
Lemma place_lsb_In pre f post off :
  In (Slot (bf_name f) (off + total_width pre) (bf_width f))
     (place_lsb off (pre ++ f :: post)).
Proof.
  rewrite place_lsb_app. apply in_or_app. right. left. reflexivity.
Qed.

(** In big-endian order a member ends right below the members before it. *)
Lemma place_msb_In pre f post top :
  In (Slot (bf_name f) (top - total_width pre - bf_width f) (bf_width f))
     (place_msb top (pre ++ f :: post)).
Proof.
  rewrite place_msb_app. apply in_or_app. right. left. reflexivity.
Qed.

(** C1: for every register union that has both a little-endian and a
    big-endian member list, the big-endian list is the little-endian list
    reversed (same member names, same widths, mirrored order); hence the two
    variants give every named and every reserved member the same bits of the
    32-bit word: each member of either list has one slot in each layout, and
    a member that follows members of total width [k] in the little-endian
    list (from bit [k] upwards), or in the big-endian list (from bit [31 - k]
    downwards), occupies those bits in both layouts. *)
Theorem be_members_mirror_le u le be :
  In u register_unions -> u_body u = Conditional le be ->
  be = rev (members le)
  /\ layout false u = rev (layout true u)
  /\ (forall s, In s (layout false u) <-> In s (layout true u))
  /\ map (fun s => BF (s_name s) (s_width s)) (layout true u) = members le
  /\ map (fun s => BF (s_name s) (s_width s)) (layout false u) = be
  /\ (forall pre f post, members le = pre ++ f :: post ->
        In (Slot (bf_name f) (total_width pre) (bf_width f)) (layout true u)
        /\ In (Slot (bf_name f) (total_width pre) (bf_width f)) (layout false u))
  /\ (forall pre f post, be = pre ++ f :: post ->
        In (Slot (bf_name f) (32 - total_width pre - bf_width f) (bf_width f))
           (layout false u)
        /\ In (Slot (bf_name f) (32 - total_width pre - bf_width f) (bf_width f))
              (layout true u)).
Proof.
  intros Hu Hb. pose proof (union_mirrored u le be Hu Hb) as Hrev.
  destruct (union_members_ok u true Hu) as [_ Htot].
  assert (Et : layout true u = place_lsb 0 (members le)).
  { unfold layout. rewrite Hb. reflexivity. }
  assert (Ef : layout false u = place_msb 32 be).
  { unfold layout. rewrite Hb. reflexivity. }
  assert (E : layout false u = rev (layout true u)).
  { rewrite Hb in Htot. simpl in Htot.
    rewrite Ef, Et, Hrev, <- (place_msb_rev (members le) 0), Htot. reflexivity. }
  assert (Hsame : forall s, In s (layout false u) <-> In s (layout true u)).
  { intros s. rewrite E. symmetry. apply in_rev. }
  split; [exact Hrev|]. split; [exact E|]. split; [exact Hsame|].
  split; [rewrite Et; apply place_lsb_members|].
  split; [rewrite Ef; apply place_msb_members|]. split.
  - intros pre f post Hm.
    assert (Hin : In (Slot (bf_name f) (total_width pre) (bf_width f)) (layout true u)).
    { rewrite Et, Hm. exact (place_lsb_In pre f post 0). }
    split; [exact Hin | apply Hsame, Hin].
  - intros pre f post Hm.
    assert (Hin : In (Slot (bf_name f) (32 - total_width pre - bf_width f) (bf_width f))
                     (layout false u)).
    { rewrite Ef, Hm. exact (place_msb_In pre f post 32). }
    split; [exact Hin | apply Hsame, Hin].
Qed.

Lemma be_members_mirror_le_btr :
  [BF "sjw" 5; BF "brp" 8; BF "ph2" 6; BF "ph1" 6; BF "prop" 7]
  = rev (members [("BTR", [BF "prop" 7; BF "ph1" 6; BF "ph2" 6; BF "brp" 8; BF "sjw" 5])])
  /\ layout false ctu_can_fd_btr = rev (layout true ctu_can_fd_btr)
  /\ (forall s, In s (layout false ctu_can_fd_btr) <-> In s (layout true ctu_can_fd_btr))
  /\ map (fun s => BF (s_name s) (s_width s)) (layout true ctu_can_fd_btr)
     = members [("BTR", [BF "prop" 7; BF "ph1" 6; BF "ph2" 6; BF "brp" 8; BF "sjw" 5])]
  /\ map (fun s => BF (s_name s) (s_width s)) (layout false ctu_can_fd_btr)
     = [BF "sjw" 5; BF "brp" 8; BF "ph2" 6; BF "ph1" 6; BF "prop" 7]
  /\ (forall pre f post,
        members [("BTR", [BF "prop" 7; BF "ph1" 6; BF "ph2" 6; BF "brp" 8; BF "sjw" 5])]
        = pre ++ f :: post ->
        In (Slot (bf_name f) (total_width pre) (bf_width f)) (layout true ctu_can_fd_btr)
        /\ In (Slot (bf_name f) (total_width pre) (bf_width f))
              (layout false ctu_can_fd_btr))
  /\ (forall pre f post,
        [BF "sjw" 5; BF "brp" 8; BF "ph2" 6; BF "ph1" 6; BF "prop" 7] = pre ++ f :: post ->
        In (Slot (bf_name f) (32 - total_width pre - bf_width f) (bf_width f))
           (layout false ctu_can_fd_btr)
        /\ In (Slot (bf_name f) (32 - total_width pre - bf_width f) (bf_width f))
              (layout true ctu_can_fd_btr)).
Proof.
  apply (be_members_mirror_le ctu_can_fd_btr).
  - do 7 right. left. reflexivity.
  - reflexivity.
Defined.

(** C2: in every register union the raw member [u32] and the structure [s]
    are two views of the same 32 bits.  For every 32-bit value, reading all
    members and putting them back at their positions gives the value again;
    storing the values read, member by member, into any word gives it too;
    conversely, storing member values that fit and reading the members back
    returns those values, and the word then read through [u32] is their
    assembly.  This holds for both bitfield orders. *)
Theorem raw_and_fields_alias u little :
  In u register_unions ->
  (forall v, is_u32 v ->
     assemble (layout little u) (read_fields v (layout little u)) = v
     /\ Forall2 fits (layout little u) (read_fields v (layout little u)))
  /\ (forall v0 v, is_u32 v0 -> is_u32 v ->
        write_fields v0 (layout little u) (read_fields v (layout little u)) = v)
  /\ (forall v0 xs, is_u32 v0 -> Forall2 fits (layout little u) xs ->
        read_fields (write_fields v0 (layout little u) xs) (layout little u) = xs
        /\ write_fields v0 (layout little u) xs = assemble (layout little u) xs
        /\ is_u32 (write_fields v0 (layout little u) xs)).
Proof.
  intros Hu. destruct (layout_tiles u little Hu) as (Hok & Hd & Hc).
  split; [|split].
  - intros v Hv. split.
    + apply assemble_read_fields; assumption.
    + apply read_fields_fit, Hok.
  - intros v0 v Hv0 Hv. apply write_read_fields; assumption.
  - intros v0 xs Hv0 Hxs. split; [|split].
    + apply read_write_fields; assumption.
    + apply write_fields_assemble; assumption.
    + apply write_fields_u32; assumption.
Qed.

Lemma raw_and_fields_alias_btr :
  assemble (layout true ctu_can_fd_btr)
           (read_fields 0xcafd1234 (layout true ctu_can_fd_btr)) = 0xcafd1234
  /\ read_fields (write_fields 0 (layout false ctu_can_fd_btr) [25; 95; 52; 9; 52])
                 (layout false ctu_can_fd_btr) = [25; 95; 52; 9; 52].
Proof.
  split.
  - apply (raw_and_fields_alias ctu_can_fd_btr true).
    + do 7 right. left. reflexivity.
    + unfold is_u32. lia.
  - apply (raw_and_fields_alias ctu_can_fd_btr false).
    + do 7 right. left. reflexivity.
    + unfold is_u32. lia.
    + repeat constructor; unfold fits; simpl; lia.
Defined.

(** C3, as stated, counts 64 register-offset enumerators.  The enumeration
    has 68 of them: no duplicate-free list of all enumerators has length 64. *)
Lemma register_count_not_64 :
  ~ exists l : list ctu_can_fd_can_registers,
      NoDup l /\ (forall r, In r l) /\ List.length l = 64%nat.
Proof.
  intros (l & _ & Hall & Hlen).
  assert (Hincl : incl all_registers l) by (intros r _; apply Hall).
  pose proof (NoDup_incl_length all_registers_NoDup Hincl) as Hle.
  change (List.length all_registers) with 68%nat in Hle. lia.
Qed.

(** C3 (amended): [enum ctu_can_fd_can_registers] has 68 enumerators, and
    each has a value distinct from every other (the mapping from names to byte
    offsets is injective).  Every register union describes one aligned 32-bit
    word, the words of distinct unions do not overlap, and two registers start
    in the same word only when one union packs them together, as MODE, COMMAND,
    STATUS and SETTINGS at offsets 0x4 to 0x7 are. *)
Theorem register_offsets_distinct :
  (NoDup all_registers /\ (forall r, In r all_registers)
   /\ List.length all_registers = 68%nat)
  /\ (forall r1 r2, reg_offset r1 = reg_offset r2 -> r1 = r2)
  /\ ForallOrdPairs
       (fun u1 u2 => exists b1 b2,
            union_base u1 = Some b1 /\ union_base u2 = Some b2 /\ spans_disjoint b1 b2)
       register_unions
  /\ (forall u, In u register_unions ->
        exists b, union_base u = Some b /\ b mod 4 = 0
                  /\ List.length (union_registers u) = List.length (struct_tags (u_body u))
                  /\ forall r, In r (union_registers u) -> b <= reg_offset r < b + 4)
  /\ (forall r1 r2, r1 <> r2 -> word_of r1 = word_of r2 ->
        exists u, In u register_unions
                  /\ In r1 (union_registers u) /\ In r2 (union_registers u))
  /\ (union_registers ctu_can_fd_mode_command_status_settings
        = [CTU_CAN_FD_MODE; CTU_CAN_FD_COMMAND; CTU_CAN_FD_STATUS; CTU_CAN_FD_SETTINGS]
      /\ map reg_offset (union_registers ctu_can_fd_mode_command_status_settings)
        = [0x4; 0x5; 0x6; 0x7]).
Proof.
  split; [|split; [|split; [|split; [|split]]]].
  - split; [exact all_registers_NoDup|]. split; [exact all_registers_complete | reflexivity].
  - exact reg_offset_inj.
  - apply (ForallOrdPairs_impl (fun u1 u2 => spans_disjointb u1 u2 = true)).
    + exact spans_disjointb_sound.
    + apply pairwiseb_sound. vm_compute. reflexivity.
  - intros u Hu. apply union_span_okb_sound.
    assert (H : forallb union_span_okb register_unions = true) by (vm_compute; reflexivity).
    exact (proj1 (forallb_forall _ _) H u Hu).
  - intros r1 r2. apply packed_okb_sound.
    assert (H : forallb (fun a => forallb (packed_okb a) all_registers) all_registers = true)
      by (vm_compute; reflexivity).
    pose proof (proj1 (forallb_forall _ _) H r1 (all_registers_complete r1)) as H1.
    exact (proj1 (forallb_forall _ _) H1 r2 (all_registers_complete r2)).
  - split; reflexivity.
Qed.

Lemma register_offsets_distinct_mode_command :
  CTU_CAN_FD_MODE <> CTU_CAN_FD_COMMAND
  /\ exists u, In u register_unions
               /\ In CTU_CAN_FD_MODE (union_registers u)
               /\ In CTU_CAN_FD_COMMAND (union_registers u).
Proof.
  split; [discriminate|].
  apply register_offsets_distinct; [discriminate | reflexivity].
Defined.

(** C4: for every field-value enumeration of the header, every named constant
    is representable in the declared width of the member the enumeration is
    for: each constant is below 2^w, [w] the member's width.  So the values of
    [ctu_can_fd_tx_status_tx1s] fit the 4-bit [tx1s], those of
    [ctu_can_fd_err_capt_err_pos] the 5-bit [err_pos], those of
    [ctu_can_fd_err_capt_err_type] the 3-bit [err_type], and
    [CTU_CAN_FD_ID = 0xcafd] the 16-bit [device_id]. *)
Theorem enum_constants_fit :
  (forall e, In e field_enums ->
     exists f, enum_fields e = [f]
               /\ forall c v, In (c, v) (e_consts e) -> 0 <= v < 2 ^ bf_width f)
  /\ enum_fields ctu_can_fd_tx_status_tx1s = [BF "tx1s" 4]
  /\ enum_fields ctu_can_fd_err_capt_err_pos = [BF "err_pos" 5]
  /\ enum_fields ctu_can_fd_err_capt_err_type = [BF "err_type" 3]
  /\ enum_fields ctu_can_fd_device_id_device_id = [BF "device_id" 16]
  /\ enum_value ctu_can_fd_device_id_device_id "CTU_CAN_FD_ID" = Some 0xcafd.
Proof.
  split; [|repeat split].
  intros e He.
  assert (H : forallb enum_fitsb field_enums = true) by (vm_compute; reflexivity).
  pose proof (proj1 (forallb_forall _ _) H e He) as Hfit. clear H.
  unfold enum_fitsb in Hfit.
  destruct (enum_fields e) as [|f [|? ?]]; try discriminate.
  exists f. split; [reflexivity|]. intros c v Hcv.
  pose proof (proj1 (forallb_forall _ _) Hfit (c, v) Hcv) as Hv. simpl in Hv.
  apply andb_true_iff in Hv as [Hlo Hhi].
  apply Z.leb_le in Hlo. apply Z.ltb_lt in Hhi. lia.
Qed.

Lemma enum_constants_fit_txt_ety :
  exists f, enum_fields ctu_can_fd_tx_status_tx1s = [f]
            /\ forall c v, In (c, v) (e_consts ctu_can_fd_tx_status_tx1s) ->
                           0 <= v < 2 ^ bf_width f.
Proof.
  apply enum_constants_fit. do 13 right. left. reflexivity.
Defined.

(** C5: for every register union, under each of the two bitfield orders, the
    widths of the declared members (named and reserved) add up to exactly 32;
    the members are not empty and tile the 32-bit word, and every reserved
    member sits at the bits its name spells out. *)
Theorem widths_sum_to_32 u little :
  In u register_unions ->
  total_width (struct_members little (u_body u)) = 32
  /\ positive_widths (struct_members little (u_body u))
  /\ tiles_word (layout little u)
  /\ (forall s, In s (layout little u) -> is_reserved (s_name s) = true ->
        exists hi lo, reserved_bits (s_name s) = Some (hi, lo)
                      /\ s_lsb s = lo /\ s_lsb s + s_width s - 1 = hi).
Proof.
  intros Hu. destruct (union_members_ok u little Hu) as [Hpos Htot].
  split; [exact Htot|]. split; [exact Hpos|]. split; [exact (layout_tiles u little Hu)|].
  intros s Hs Hres. pose proof (union_reserved_ok u little s Hu Hs) as Hok.
  unfold reserved_okb in Hok. destruct (reserved_bits (s_name s)) as [[hi lo]|].
  - exists hi, lo. apply andb_true_iff in Hok as [Hlo Hhi].
    apply Z.eqb_eq in Hlo. apply Z.eqb_eq in Hhi. auto.
  - rewrite Hres in Hok. discriminate.
Qed.

Lemma widths_sum_to_32_btr_fd :
  total_width (struct_members false (u_body ctu_can_fd_btr_fd)) = 32
  /\ positive_widths (struct_members false (u_body ctu_can_fd_btr_fd))
  /\ tiles_word (layout false ctu_can_fd_btr_fd)
  /\ (forall s, In s (layout false ctu_can_fd_btr_fd) -> is_reserved (s_name s) = true ->
        exists hi lo, reserved_bits (s_name s) = Some (hi, lo)
                      /\ s_lsb s = lo /\ s_lsb s + s_width s - 1 = hi).
Proof.
  apply (widths_sum_to_32 ctu_can_fd_btr_fd false). do 8 right. left. reflexivity.
Defined.

(** C6: the register named MODE is bound to byte offset 0x4: the enumerator
    [CTU_CAN_FD_MODE] of [enum ctu_can_fd_can_registers] equals 0x4. *)
Theorem mode_register_offset :
  reg_of_tag "MODE" = Some CTU_CAN_FD_MODE
  /\ reg_of_name "CTU_CAN_FD_MODE" = Some CTU_CAN_FD_MODE
  /\ reg_offset CTU_CAN_FD_MODE = 0x4.
Proof. repeat split. Qed.

(** C7: in [enum ctu_can_fd_log_capt_event_2_evnt_det] distinct names share
    a numeric code: two distinct enumerators ([ISN_FDSTF], [ISN_FSTF]) equal
    0x0 and five ([BIT_ERR], [S_UP], [IS_SYNC], [IS_FDSTF], [IS_FSTF]) equal
    0x1; all of them are kept, each a name of its value. *)
Theorem evnt_det_aliases :
  names_of_value ctu_can_fd_log_capt_event_2_evnt_det 0x0 = ["ISN_FDSTF"; "ISN_FSTF"]
  /\ names_of_value ctu_can_fd_log_capt_event_2_evnt_det 0x1
     = ["BIT_ERR"; "S_UP"; "IS_SYNC"; "IS_FDSTF"; "IS_FSTF"]
  /\ NoDup (enum_names ctu_can_fd_log_capt_event_2_evnt_det)
  /\ Forall (fun n => In (n, 0x0) (e_consts ctu_can_fd_log_capt_event_2_evnt_det)
                      /\ enum_value ctu_can_fd_log_capt_event_2_evnt_det n = Some 0x0)
            ["ISN_FDSTF"; "ISN_FSTF"]
  /\ Forall (fun n => In (n, 0x1) (e_consts ctu_can_fd_log_capt_event_2_evnt_det)
                      /\ enum_value ctu_can_fd_log_capt_event_2_evnt_det n = Some 0x1)
            ["BIT_ERR"; "S_UP"; "IS_SYNC"; "IS_FDSTF"; "IS_FSTF"].
Proof.
  assert (E0 : names_of_value ctu_can_fd_log_capt_event_2_evnt_det 0x0
               = ["ISN_FDSTF"; "ISN_FSTF"]) by reflexivity.
  assert (E1 : names_of_value ctu_can_fd_log_capt_event_2_evnt_det 0x1
               = ["BIT_ERR"; "S_UP"; "IS_SYNC"; "IS_FDSTF"; "IS_FSTF"]) by reflexivity.
  split; [exact E0|]. split; [exact E1|]. split; [|split].
  - apply NoDup_string_checked. vm_compute. reflexivity.
  - apply Forall_forall. intros n Hn. rewrite <- E0 in Hn. split.
    + apply names_of_value_spec, Hn.
    + rewrite E0 in Hn. simpl in Hn.
      destruct Hn as [<-|[<-|[]]]; reflexivity.
  - apply Forall_forall. intros n Hn. rewrite <- E1 in Hn. split.
    + apply names_of_value_spec, Hn.
    + rewrite E1 in Hn. simpl in Hn.
      destruct Hn as [<-|[<-|[<-|[<-|[<-|[]]]]]]; reflexivity.
Qed.

(** C8: the transmit-buffer status members [tx1s], [tx2s], [tx3s] and [tx4s]
    of the TX_STATUS register are 4 bits wide, and their values have a closed
    set of named constants, among them ready ([TXT_RDY = 0x1]), transmitting
    ([TXT_TRAN = 0x2]), error ([TXT_ERR = 0x6]) and aborted ([TXT_ABT = 0x7]),
    all pairwise distinct. *)
Theorem tx_status_codes :
  union_registers ctu_can_fd_tx_status = [CTU_CAN_FD_TX_STATUS]
  /\ (forall little,
        Forall (fun s => In s (named_slots little ctu_can_fd_tx_status))
               [Slot "tx1s" 0 4; Slot "tx2s" 4 4; Slot "tx3s" 8 4; Slot "tx4s" 12 4]
        /\ List.length (named_slots little ctu_can_fd_tx_status) = 4%nat)
  /\ enum_fields ctu_can_fd_tx_status_tx1s = [BF "tx1s" 4]
  /\ e_consts ctu_can_fd_tx_status_tx1s
     = [("TXT_RDY", 0x1); ("TXT_TRAN", 0x2); ("TXT_ABTP", 0x3); ("TXT_TOK", 0x4);
        ("TXT_ERR", 0x6); ("TXT_ABT", 0x7); ("TXT_ETY", 0x8)]
  /\ enum_value ctu_can_fd_tx_status_tx1s "TXT_RDY" = Some 0x1
  /\ enum_value ctu_can_fd_tx_status_tx1s "TXT_TRAN" = Some 0x2
  /\ enum_value ctu_can_fd_tx_status_tx1s "TXT_ERR" = Some 0x6
  /\ enum_value ctu_can_fd_tx_status_tx1s "TXT_ABT" = Some 0x7
  /\ NoDup (enum_values ctu_can_fd_tx_status_tx1s)
  /\ NoDup (enum_names ctu_can_fd_tx_status_tx1s).
Proof.
  split; [reflexivity|]. split.
  { intros little. split; [|destruct little; reflexivity].
    destruct little; repeat constructor; vm_compute; tauto. }
  do 6 (split; [reflexivity|]). split.
  - apply NoDup_Z_checked. vm_compute. reflexivity.
  - apply NoDup_string_checked. vm_compute. reflexivity.
Qed.

(** C9: the four transmit-buffer data regions are addressed uniformly: for
    every buffer number n from 1 to 4, [CTU_CAN_FD_TXTBn_DATA_1 = n * 0x100],
    [CTU_CAN_FD_TXTBn_DATA_2 = CTU_CAN_FD_TXTBn_DATA_1 + 0x4] and
    [CTU_CAN_FD_TXTBn_DATA_20 = CTU_CAN_FD_TXTBn_DATA_1 + 0x4c], that is 19
    32-bit words after [DATA_1]; the buffers have the same internal layout at
    a stride of 0x100. *)
Theorem txtb_data_uniform n :
  1 <= n <= 4 ->
  exists d1 d2 d20,
    txtb_data n 1 = Some d1 /\ txtb_data n 2 = Some d2 /\ txtb_data n 20 = Some d20
    /\ reg_offset d1 = n * 0x100
    /\ reg_offset d2 = reg_offset d1 + 0x4
    /\ reg_offset d20 = reg_offset d1 + 0x4c
    /\ reg_offset d20 = reg_offset d1 + 19 * 4
    /\ (n < 4 -> exists e1, txtb_data (n + 1) 1 = Some e1
                            /\ reg_offset e1 = reg_offset d1 + 0x100).
Proof.
  intros Hn.
  assert (Hcases : n = 1 \/ n = 2 \/ n = 3 \/ n = 4) by lia.
  destruct Hcases as [-> | [-> | [-> | ->]]].
  - exists CTU_CAN_FD_TXTB1_DATA_1, CTU_CAN_FD_TXTB1_DATA_2, CTU_CAN_FD_TXTB1_DATA_20.
    repeat split. intros _. exists CTU_CAN_FD_TXTB2_DATA_1. split; reflexivity.
  - exists CTU_CAN_FD_TXTB2_DATA_1, CTU_CAN_FD_TXTB2_DATA_2, CTU_CAN_FD_TXTB2_DATA_20.
    repeat split. intros _. exists CTU_CAN_FD_TXTB3_DATA_1. split; reflexivity.
  - exists CTU_CAN_FD_TXTB3_DATA_1, CTU_CAN_FD_TXTB3_DATA_2, CTU_CAN_FD_TXTB3_DATA_20.
    repeat split. intros _. exists CTU_CAN_FD_TXTB4_DATA_1. split; reflexivity.
  - exists CTU_CAN_FD_TXTB4_DATA_1, CTU_CAN_FD_TXTB4_DATA_2, CTU_CAN_FD_TXTB4_DATA_20.
    repeat split. intros H. discriminate H.
Qed.

Lemma txtb_data_uniform_buffer_3 :
  exists d1 d2 d20,
    txtb_data 3 1 = Some d1 /\ txtb_data 3 2 = Some d2 /\ txtb_data 3 20 = Some d20
    /\ reg_offset d1 = 3 * 0x100
    /\ reg_offset d2 = reg_offset d1 + 0x4
    /\ reg_offset d20 = reg_offset d1 + 0x4c
    /\ reg_offset d20 = reg_offset d1 + 19 * 4
    /\ (3 < 4 -> exists e1, txtb_data (3 + 1) 1 = Some e1
                            /\ reg_offset e1 = reg_offset d1 + 0x100).
Proof. apply (txtb_data_uniform 3). lia. Defined.

(** C10: the interrupt control registers INT_ENA_SET, INT_ENA_CLR,
    INT_MASK_SET and INT_MASK_CLR have the same layout, one 12-bit member on
    bits 0 to 11 and bits 12 to 31 reserved; 12 is the number of named one-bit
    interrupt flags of INT_STAT ([rxi] to [txbhci]), which sit on bits 0 to 11,
    so every interrupt-status bit has its bit in each of the four registers. *)
Theorem int_control_layouts :
  Forall (fun u => forall little,
              map extent (named_slots little u) = [(0, 12)]
              /\ map extent (reserved_slots little u) = [(12, 20)]
              /\ List.length (layout little u) = 2%nat)
         [ctu_can_fd_int_ena_set; ctu_can_fd_int_ena_clr;
          ctu_can_fd_int_mask_set; ctu_can_fd_int_mask_clr]
  /\ map union_registers
         [ctu_can_fd_int_stat; ctu_can_fd_int_ena_set; ctu_can_fd_int_ena_clr;
          ctu_can_fd_int_mask_set; ctu_can_fd_int_mask_clr]
     = [[CTU_CAN_FD_INT_STAT]; [CTU_CAN_FD_INT_ENA_SET]; [CTU_CAN_FD_INT_ENA_CLR];
        [CTU_CAN_FD_INT_MASK_SET]; [CTU_CAN_FD_INT_MASK_CLR]]
  /\ map (fun s => (s_name s, extent s)) (named_slots true ctu_can_fd_int_stat)
     = [("rxi", (0, 1)); ("txi", (1, 1)); ("ewli", (2, 1)); ("doi", (3, 1));
        ("epi", (4, 1)); ("ali", (5, 1)); ("bei", (6, 1)); ("lfi", (7, 1));
        ("rxfi", (8, 1)); ("bsi", (9, 1)); ("rbnei", (10, 1)); ("txbhci", (11, 1))]
  /\ named_slots false ctu_can_fd_int_stat = rev (named_slots true ctu_can_fd_int_stat)
  /\ (forall little,
        Z.of_nat (List.length (named_slots little ctu_can_fd_int_stat)) = 12
        /\ map extent (reserved_slots little ctu_can_fd_int_stat) = [(12, 20)])
  /\ (forall u little s,
        In u [ctu_can_fd_int_ena_set; ctu_can_fd_int_ena_clr;
              ctu_can_fd_int_mask_set; ctu_can_fd_int_mask_clr] ->
        In s (named_slots little ctu_can_fd_int_stat) ->
        exists t, In t (named_slots little u) /\ in_slot (s_lsb s) t = true).
Proof.
  split; [|split; [|split; [|split; [|split]]]].
  - repeat constructor; destruct little; reflexivity.
  - reflexivity.
  - reflexivity.
  - reflexivity.
  - intros little. destruct little; split; reflexivity.
  - assert (Hbits : forall little s,
               In s (named_slots little ctu_can_fd_int_stat) -> 0 <= s_lsb s < 12).
    { intros little s Hs.
      assert (H : forallb (fun s => (0 <=? s_lsb s) && (s_lsb s <? 12))
                          (named_slots little ctu_can_fd_int_stat) = true)
        by (destruct little; vm_compute; reflexivity).
      pose proof (proj1 (forallb_forall _ _) H s Hs) as Hb.
      apply andb_true_iff in Hb as [Hlo Hhi].
      apply Z.leb_le in Hlo. apply Z.ltb_lt in Hhi. lia. }
    intros u little s Hu Hs. apply Hbits in Hs.
    destruct Hu as [<-|[<-|[<-|[<-|[]]]]];
      (eexists; split;
       [destruct little; left; reflexivity
       | apply in_slot_spec; destruct little; simpl; lia]).
Qed.

Lemma int_control_layouts_bei_mask_clr :
  exists t, In t (named_slots false ctu_can_fd_int_mask_clr)
            /\ in_slot (s_lsb (Slot "bei" 6 1)) t = true.
Proof.
  apply int_control_layouts.
  - do 3 right. left. reflexivity.
  - vm_compute. tauto.
Defined.

(** * Further properties *)

(** ** Member access by name *)

Lemma slot_eqb_eq a b : slot_eqb a b = true -> a = b.
Proof.
  destruct a as [na la wa], b as [nb lb wb]. unfold slot_eqb. simpl. intros H.
  apply andb_true_iff in H as [H Hw]. apply andb_true_iff in H as [Hn Hl].
  apply String.eqb_eq in Hn. apply Z.eqb_eq in Hl. apply Z.eqb_eq in Hw. congruence.
Qed.

Lemma layouts_checked :
  forallb (fun u => list_eqb slot_eqb (layout false u) (rev (layout true u))
                    && pairwiseb (fun a b => negb (String.eqb a b))
                                 (map s_name (layout true u)))
          register_unions = true.
Proof. vm_compute. reflexivity. Qed.

Lemma layout_false_rev u : In u register_unions -> layout false u = rev (layout true u).
Proof.
  intros Hu. pose proof (proj1 (forallb_forall _ _) layouts_checked u Hu) as H.
  cbv beta in H. apply andb_true_iff in H as [H _].
  exact (list_eqb_eq _ slot_eqb_eq _ _ H).
Qed.

Lemma layout_names_NoDup u little :
  In u register_unions -> NoDup (map s_name (layout little u)).
Proof.
  intros Hu. pose proof (proj1 (forallb_forall _ _) layouts_checked u Hu) as H.
  cbv beta in H. apply andb_true_iff in H as [_ H]. apply NoDup_string_checked in H.
  destruct little; [exact H|].
  rewrite (layout_false_rev u Hu), map_rev. apply NoDup_rev, H.
Qed.

Lemma find_by_name ss n s :
  NoDup (map s_name ss) -> In s ss -> s_name s = n ->
  find (fun x => String.eqb (s_name x) n) ss = Some s.
Proof.
  intros Hnd Hin Hn. induction ss as [|a ss IH]; [contradiction|].
  simpl in *. inversion Hnd as [|? ? Hnotin Hnd']; subst.
  destruct (String.eqb_spec (s_name a) (s_name s)) as [Heq|Hne].
  - destruct Hin as [->|Hin]; [reflexivity|].
    exfalso. apply Hnotin. rewrite Heq. apply in_map, Hin.
  - destruct Hin as [->|Hin]; [contradiction|]. apply IH; assumption.
Qed.

Lemma find_by_name_rev ss n :
  NoDup (map s_name ss) ->
  find (fun x => String.eqb (s_name x) n) (rev ss)
  = find (fun x => String.eqb (s_name x) n) ss.
Proof.
  intros Hnd.
  destruct (find (fun x => String.eqb (s_name x) n) ss) as [s|] eqn:E.
  - apply find_some in E as [Hin Hn]. apply String.eqb_eq in Hn.
    apply find_by_name; [|apply in_rev in Hin; exact Hin | exact Hn].
    rewrite map_rev. apply NoDup_rev, Hnd.
  - destruct (find (fun x => String.eqb (s_name x) n) (rev ss)) as [s|] eqn:E';
      [|reflexivity].
    apply find_some in E' as [Hin Hn]. apply in_rev in Hin.
    rewrite (find_none _ _ E s Hin) in Hn. discriminate.
Qed.

Lemma member_slot_In little u n s :
  member_slot little u n = Some s -> In s (layout little u) /\ s_name s = n.
Proof.
  unfold member_slot. intros H. apply find_some in H as [Hin Hn].
  apply String.eqb_eq in Hn. auto.
Qed.

Lemma member_slot_ok little u n s :
  In u register_unions -> member_slot little u n = Some s -> slot_ok s.
Proof.
  intros Hu H. apply member_slot_In in H as [Hin _].
  destruct (layout_tiles u little Hu) as (Hok & _ & _).
  exact (proj1 (Forall_forall _ _) Hok s Hin).
Qed.

Lemma member_slots_disjoint little u n m s t :
  In u register_unions -> n <> m ->
  member_slot little u n = Some s -> member_slot little u m = Some t ->
  slots_disjoint s t.
Proof.
  intros Hu Hnm Hs Ht.
  apply member_slot_In in Hs as [Hs Hn]. apply member_slot_In in Ht as [Ht Hm].
  destruct (layout_tiles u little Hu) as (_ & Hd & _).
  destruct (ForallOrdPairs_In Hd s t Hs Ht) as [->|[H|H]].
  - congruence.
  - exact H.
  - apply slots_disjoint_sym, H.
Qed.

Lemma get_set_trunc v s x :
  0 <= s_lsb s -> 0 <= s_width s ->
  get_field (set_field v s x) s = x mod 2 ^ s_width s.
Proof.
  intros Hl Hw. rewrite <- Z.land_ones by exact Hw.
  apply Z.bits_inj'. intros m Hm.
  rewrite testbit_get_field, testbit_set_field, Z.land_spec, Z.testbit_ones_nonneg by lia.
  destruct (Z.ltb_spec m (s_width s)) as [Hlt|Hge]; [|rewrite !andb_false_r; reflexivity].
  assert (E : in_slot (m + s_lsb s) s = true) by (apply in_slot_spec; lia).
  rewrite E. f_equal. f_equal. lia.
Qed.

Lemma set_field_comm v s t x y :
  0 <= s_width s -> 0 <= s_width t -> slots_disjoint s t ->
  set_field (set_field v s x) t y = set_field (set_field v t y) s x.
Proof.
  intros Hs Ht Hd. apply Z.bits_inj'. intros n Hn.
  rewrite !testbit_set_field by assumption.
  destruct (in_slot n s) eqn:Es, (in_slot n t) eqn:Et; try reflexivity.
  apply in_slot_spec in Es. apply in_slot_spec in Et.
  unfold slots_disjoint in Hd. lia.
Qed.

Lemma set_field_overwrite v s x y :
  0 <= s_width s -> set_field (set_field v s x) s y = set_field v s y.
Proof.
  intros Hs. apply Z.bits_inj'. intros n Hn.
  rewrite !testbit_set_field by assumption.
  destruct (in_slot n s); reflexivity.
Qed.

Lemma set_field_u32 v s x : slot_ok s -> is_u32 v -> is_u32 (set_field v s x).
Proof.
  intros Hs Hv.
  exact (write_fields_u32 [s] v [x] (Forall_cons _ Hs (Forall_nil _)) Hv).
Qed.

(** X1: a member name denotes the same bits under both bitfield orders: for
    every register union, looking a member up by name gives the same slot in
    the little-endian and in the big-endian layout (or none in both), so
    reading or writing [u.s.name] has the same effect on the raw word. *)
Theorem member_access_order_independent u name :
  In u register_unions ->
  member_slot true u name = member_slot false u name
  /\ (forall v, read_member true u name v = read_member false u name v)
  /\ (forall x v, write_member true u name x v = write_member false u name x v).
Proof.
  intros Hu.
  assert (E : member_slot true u name = member_slot false u name).
  { unfold member_slot. rewrite (layout_false_rev u Hu). symmetry.
    apply find_by_name_rev, (layout_names_NoDup u true Hu). }
  unfold read_member, write_member. rewrite E. auto.
Qed.

Lemma member_access_order_independent_brp :
  member_slot true ctu_can_fd_btr "brp" = member_slot false ctu_can_fd_btr "brp"
  /\ (forall v, read_member true ctu_can_fd_btr "brp" v
                = read_member false ctu_can_fd_btr "brp" v)
  /\ (forall x v, write_member true ctu_can_fd_btr "brp" x v
                  = write_member false ctu_can_fd_btr "brp" x v).
Proof.
  apply member_access_order_independent. do 7 right. left. reflexivity.
Defined.

(** X2: storing a value into a member and reading the member back returns
    the value truncated to the member's width, whatever the word held. *)
Theorem write_then_read_member little u name x v v' :
  In u register_unions ->
  write_member little u name x v = Some v' ->
  exists s, member_slot little u name = Some s
            /\ read_member little u name v' = Some (x mod 2 ^ s_width s).
Proof.
  intros Hu Hw. unfold write_member, read_member in *.
  destruct (member_slot little u name) as [s|] eqn:Es; [|discriminate].
  simpl in Hw. injection Hw as <-. exists s. split; [reflexivity|]. simpl.
  destruct (member_slot_ok little u name s Hu Es) as (Hl & Hwd & _).
  rewrite get_set_trunc by lia. reflexivity.
Qed.

Lemma write_then_read_member_tx2s :
  exists s, member_slot true ctu_can_fd_tx_status "tx2s" = Some s
            /\ read_member true ctu_can_fd_tx_status "tx2s" 0x8076
               = Some (0x27 mod 2 ^ s_width s).
Proof.
  apply (write_then_read_member true ctu_can_fd_tx_status "tx2s" 0x27 0x8086).
  - do 26 right. left. reflexivity.
  - reflexivity.
Defined.

(** X3: storing into one member leaves every other member of the union as
    it was. *)
Theorem write_member_frame little u n m x v v' :
  In u register_unions -> n <> m ->
  write_member little u n x v = Some v' ->
  read_member little u m v' = read_member little u m v.
Proof.
  intros Hu Hnm Hw. unfold write_member, read_member in *.
  destruct (member_slot little u n) as [s|] eqn:Es; [|discriminate].
  simpl in Hw. injection Hw as <-.
  destruct (member_slot little u m) as [t|] eqn:Et; [|reflexivity]. simpl. f_equal.
  destruct (member_slot_ok little u n s Hu Es) as (_ & Hws & _).
  destruct (member_slot_ok little u m t Hu Et) as (Hlt & Hwt & _).
  apply get_set_other; try lia.
  apply slots_disjoint_sym, (member_slots_disjoint little u n m s t); assumption.
Qed.

Lemma write_member_frame_ph1_brp :
  read_member false ctu_can_fd_btr "brp" 0xcafd0234
  = read_member false ctu_can_fd_btr "brp" 0xcafd1234.
Proof.
  apply (write_member_frame false ctu_can_fd_btr "ph1" "brp" 4).
  - do 7 right. left. reflexivity.
  - discriminate.
  - reflexivity.
Defined.

(** X4: stores into two different members of a union commute. *)
Theorem write_member_commute little u n m x y v v1 v2 :
  In u register_unions -> n <> m ->
  write_member little u n x v = Some v1 ->
  write_member little u m y v = Some v2 ->
  write_member little u m y v1 = write_member little u n x v2.
Proof.
  intros Hu Hnm H1 H2. unfold write_member in *.
  destruct (member_slot little u n) as [s|] eqn:Es; [|discriminate].
  destruct (member_slot little u m) as [t|] eqn:Et; [|discriminate].
  simpl in *. injection H1 as <-. injection H2 as <-. f_equal.
  destruct (member_slot_ok little u n s Hu Es) as (_ & Hws & _).
  destruct (member_slot_ok little u m t Hu Et) as (_ & Hwt & _).
  apply set_field_comm; try lia.
  exact (member_slots_disjoint little u n m s t Hu Hnm Es Et).
Qed.

Lemma write_member_commute_ph1_brp :
  write_member true ctu_can_fd_btr "brp" 0xff 0x1f80
  = write_member true ctu_can_fd_btr "ph1" 0x3f 0x7f80000.
Proof.
  apply (write_member_commute true ctu_can_fd_btr "ph1" "brp" 0x3f 0xff 0).
  - do 7 right. left. reflexivity.
  - discriminate.
  - reflexivity.
  - reflexivity.
Defined.

(** X5: a store into a member never reaches outside the 32-bit word, and a
    second store into the same member replaces the first. *)
Theorem write_member_in_word little u name x y v v' :
  In u register_unions ->
  is_u32 v ->
  write_member little u name x v = Some v' ->
  is_u32 v' /\ write_member little u name y v' = write_member little u name y v.
Proof.
  intros Hu Hv Hw. unfold write_member in *.
  destruct (member_slot little u name) as [s|] eqn:Es; [|discriminate].
  simpl in *. injection Hw as <-.
  pose proof (member_slot_ok little u name s Hu Es) as Hs. split.
  - apply set_field_u32; assumption.
  - f_equal. apply set_field_overwrite. destruct Hs as (_ & Hwd & _). lia.
Qed.

Lemma write_member_in_word_sjw :
  is_u32 0xf8000000
  /\ write_member true ctu_can_fd_btr "sjw" 3 0xf8000000
     = write_member true ctu_can_fd_btr "sjw" 3 0.
Proof.
  apply (write_member_in_word true ctu_can_fd_btr "sjw" 0xffff 3 0).
  - do 7 right. left. reflexivity.
  - unfold is_u32. lia.
  - reflexivity.
Defined.

(** ** Names *)

Lemma NoDup_map_injective {A B : Type} (f : A -> B) l a b :
  NoDup (map f l) -> In a l -> In b l -> f a = f b -> a = b.
Proof.
  induction l as [|c l IH]; simpl; [contradiction|].
  intros Hnd Ha Hb Hab. inversion Hnd as [|? ? Hnotin Hnd']; subst.
  destruct Ha as [->|Ha], Hb as [->|Hb].
  - reflexivity.
  - exfalso. apply Hnotin. rewrite Hab. apply in_map, Hb.
  - exfalso. apply Hnotin. rewrite <- Hab. apply in_map, Ha.
  - apply IH; assumption.
Qed.

Lemma header_members_In u s :
  In u register_unions -> In s (named_slots true u) -> In (u_name u, s) header_members.
Proof.
  intros Hu Hs. unfold header_members. apply in_flat_map.
  exists u. split; [exact Hu | apply in_map, Hs].
Qed.

(** X6: a member name identifies its register: two named members of the
    header with the same name are the same member of the same union. *)
Theorem member_name_identifies_union u1 u2 s1 s2 :
  In u1 register_unions -> In u2 register_unions ->
  In s1 (named_slots true u1) -> In s2 (named_slots true u2) ->
  s_name s1 = s_name s2 ->
  u_name u1 = u_name u2 /\ s1 = s2.
Proof.
  intros Hu1 Hu2 Hs1 Hs2 Hn.
  assert (Hnd : NoDup (map (fun p => s_name (snd p)) header_members))
    by (apply NoDup_string_checked; vm_compute; reflexivity).
  pose proof (NoDup_map_injective _ _ (u_name u1, s1) (u_name u2, s2) Hnd
                (header_members_In u1 s1 Hu1 Hs1) (header_members_In u2 s2 Hu2 Hs2) Hn) as E.
  injection E as E1 E2. auto.
Qed.

Lemma member_name_identifies_union_ewl :
  u_name ctu_can_fd_mode_command_status_settings
  = u_name ctu_can_fd_mode_command_status_settings
  /\ Slot "ewl" 22 1 = Slot "ewl" 22 1.
Proof.
  apply member_name_identifies_union.
  - right. left. reflexivity.
  - right. left. reflexivity.
  - vm_compute. tauto.
  - vm_compute. tauto.
  - reflexivity.
Defined.

(** X7: no two enumerators of the header, register offsets and field values
    together, have the same identifier; nor do two of its union and
    enumeration tags, that of the register enumeration included. *)
Theorem enumerators_distinct :
  NoDup header_enumerators
  /\ (forall e, In e field_enums -> NoDup (enum_names e))
  /\ NoDup header_tags
  /\ List.length header_tags = (1 + 43 + 21)%nat.
Proof.
  assert (H : NoDup header_enumerators)
    by (apply NoDup_string_checked; vm_compute; reflexivity).
  split; [exact H|]. split.
  - intros e He. unfold header_enumerators in H.
    apply NoDup_app_remove_l in H. revert e He.
    induction field_enums as [|e0 es IH]; intros e He; [contradiction|].
    simpl in H. destruct He as [->|He].
    + apply NoDup_app_remove_r in H. exact H.
    + apply IH; [|exact He]. apply NoDup_app_remove_l in H. exact H.
  - split; [|reflexivity]. apply NoDup_string_checked. vm_compute. reflexivity.
Qed.

Lemma enumerators_distinct_evnt_type :
  NoDup (enum_names ctu_can_fd_log_capt_event_2_evnt_type).
Proof.
  apply enumerators_distinct. do 18 right. left. reflexivity.
Defined.

Lemma find_by_key (l : list (string * Z)) n v :
  NoDup (map fst l) -> In (n, v) l ->
  find (fun c => String.eqb (fst c) n) l = Some (n, v).
Proof.
  intros Hnd Hin. induction l as [|[a w] l IH]; [contradiction|].
  simpl in *. inversion Hnd as [|? ? Hnotin Hnd']; subst.
  destruct (String.eqb_spec a n) as [->|Hne].
  - destruct Hin as [E|Hin]; [congruence|].
    exfalso. apply Hnotin. change n with (fst (n, v)). apply in_map, Hin.
  - destruct Hin as [E|Hin]; [congruence|]. apply IH; assumption.
Qed.

Lemma field_enum_names_NoDup e : In e field_enums -> NoDup (enum_names e).
Proof.
  intros He.
  assert (H : forallb (fun e => pairwiseb (fun a b => negb (String.eqb a b)) (enum_names e))
                      field_enums = true) by (vm_compute; reflexivity).
  apply NoDup_string_checked. exact (proj1 (forallb_forall _ _) H e He).
Qed.

(** X8: in every field-value enumeration, looking an enumerator up by name
    returns its value, and only the names of the enumeration are found. *)
Theorem enum_value_lookup e n v :
  In e field_enums ->
  In (n, v) (e_consts e) <-> enum_value e n = Some v.
Proof.
  intros He. unfold enum_value. split.
  - intros Hin. rewrite (find_by_key _ n v (field_enum_names_NoDup e He) Hin). reflexivity.
  - intros H. destruct (find _ (e_consts e)) as [[n' v']|] eqn:E; [|discriminate].
    simpl in H. injection H as ->. apply find_some in E as [Hin Hn].
    simpl in Hn. apply String.eqb_eq in Hn. subst n'. exact Hin.
Qed.

Lemma enum_value_lookup_erc_pos_other :
  In ("ERC_POS_OTHER", 0x1f) (e_consts ctu_can_fd_err_capt_err_pos)
  <-> enum_value ctu_can_fd_err_capt_err_pos "ERC_POS_OTHER" = Some 0x1f.
Proof.
  apply enum_value_lookup. do 14 right. left. reflexivity.
Defined.

Lemma filter_by_value_length (l : list (string * Z)) (v : Z) :
  NoDup (map snd l) -> (List.length (filter (fun c => (snd c =? v)%Z) l) <= 1)%nat.
Proof.
  induction l as [|[n w] l IH]; simpl; intros Hnd; [lia|].
  inversion Hnd as [|? ? Hnotin Hnd']; subst.
  destruct (Z.eqb_spec w v) as [->|Hne]; [|apply IH, Hnd'].
  assert (E : filter (fun c => snd c =? v) l = []).
  { destruct (filter (fun c => snd c =? v) l) as [|[n' v'] r] eqn:Ef; [reflexivity|].
    assert (Hin : In (n', v') (filter (fun c => snd c =? v) l)) by (rewrite Ef; left; reflexivity).
    apply filter_In in Hin as [Hin Hv]. simpl in Hv. apply Z.eqb_eq in Hv. subst v'.
    exfalso. apply Hnotin. change v with (snd (n', v)). apply in_map, Hin. }
  rewrite E. simpl. lia.
Qed.

(** X9: [ctu_can_fd_log_capt_event_2_evnt_det] is the only enumeration in
    which names share a value: in every other one a value has at most one
    name. *)
Theorem enum_value_has_one_name e v :
  In e field_enums ->
  e_name e <> "ctu_can_fd_log_capt_event_2_evnt_det" ->
  (List.length (names_of_value e v) <= 1)%nat.
Proof.
  intros He Hne.
  assert (H : forallb (fun e => String.eqb (e_name e) "ctu_can_fd_log_capt_event_2_evnt_det"
                                || pairwiseb (fun a b => negb (a =? b)) (enum_values e))
                      field_enums = true) by (vm_compute; reflexivity).
  pose proof (proj1 (forallb_forall _ _) H e He) as Hc. cbv beta in Hc.
  apply orb_true_iff in Hc as [Hc|Hc]; [apply String.eqb_eq in Hc; contradiction|].
  unfold names_of_value. rewrite length_map.
  apply filter_by_value_length, NoDup_Z_checked, Hc.
Qed.

Lemma enum_value_has_one_name_txt_err :
  (List.length (names_of_value ctu_can_fd_tx_status_tx1s 0x6) <= 1)%nat.
Proof.
  apply enum_value_has_one_name.
  - do 13 right. left. reflexivity.
  - discriminate.
Defined.

(** X10: an enumeration for a one-bit member names both values of the bit:
    every value the member can hold has a name. *)
Theorem flag_enum_total e f v :
  In e field_enums -> enum_fields e = [f] -> bf_width f = 1 ->
  0 <= v < 2 ^ bf_width f ->
  exists n, In (n, v) (e_consts e).
Proof.
  intros He Hf Hw Hv.
  assert (H : forallb (fun e => match enum_fields e with
                                | [f] => negb (bf_width f =? 1)
                                         || list_eqb Z.eqb (enum_values e) [0; 1]
                                | _ => true
                                end) field_enums = true) by (vm_compute; reflexivity).
  pose proof (proj1 (forallb_forall _ _) H e He) as Hc. cbv beta in Hc.
  rewrite Hf, Hw in Hc. simpl in Hc.
  apply (list_eqb_eq Z.eqb (fun a b => proj1 (Z.eqb_eq a b))) in Hc.
  rewrite Hw in Hv. change (2 ^ 1) with 2 in Hv.
  assert (Hin : In v (enum_values e)) by (rewrite Hc; simpl; lia).
  unfold enum_values in Hin. apply in_map_iff in Hin as ([n v'] & E & Hin).
  simpl in E. subst v'. exists n. exact Hin.
Qed.

Lemma flag_enum_total_rtsop :
  exists n, In (n, 1) (e_consts ctu_can_fd_rx_settings_rtsop).
Proof.
  apply (flag_enum_total ctu_can_fd_rx_settings_rtsop (BF "rtsop" 1) 1).
  - do 12 right. left. reflexivity.
  - reflexivity.
  - reflexivity.
  - simpl. lia.
Defined.

(** ** The address map *)

Lemma tag_used_sound t :
  existsb (fun u => existsb (String.eqb t) (struct_tags (u_body u))) register_unions = true ->
  exists u, In u register_unions /\ In t (struct_tags (u_body u)).
Proof.
  intros H. apply existsb_exists in H as (u & Hu & H).
  apply existsb_exists in H as (t' & Ht & E). apply String.eqb_eq in E. subst t'.
  exists u. auto.
Qed.

Lemma tag_unused_sound t :
  existsb (fun u => existsb (String.eqb t) (struct_tags (u_body u))) register_unions = false ->
  forall u, In u register_unions -> ~ In t (struct_tags (u_body u)).
Proof.
  intros H u Hu Hin.
  assert (E : existsb (fun u => existsb (String.eqb t) (struct_tags (u_body u)))
                      register_unions = true).
  { apply existsb_exists. exists u. split; [exact Hu|].
    apply existsb_exists. exists t. split; [exact Hin | apply String.eqb_refl]. }
  congruence.
Qed.

Lemma tags_resolve_checked :
  forallb (fun u => forallb (fun t => match reg_of_tag t with Some _ => true | None => false end)
                            (struct_tags (u_body u)))
          register_unions = true.
Proof. vm_compute. reflexivity. Qed.

(** X11: the member comments and the register enumerators name each other:
    every comment tag T of every union is the tag of the enumerator
    [CTU_CAN_FD_T]; every enumerator is [CTU_CAN_FD_] followed by a tag, which
    some member comment uses unless the register is a transmit buffer data
    word, whose tag no comment uses; and looking an enumerator up by its
    identifier finds it and nothing else. *)
Theorem reg_of_name_inverse r :
  reg_of_name (reg_name r) = Some r
  /\ (forall n, reg_of_name n = Some r -> n = reg_name r)
  /\ (exists t, reg_name r = ("CTU_CAN_FD_" ++ t)%string /\ reg_of_tag t = Some r
                /\ ((is_txtb_data r = false
                     /\ exists u, In u register_unions /\ In t (struct_tags (u_body u)))
                    \/ (is_txtb_data r = true
                        /\ forall u, In u register_unions -> ~ In t (struct_tags (u_body u)))))
  /\ (forall u t, In u register_unions -> In t (struct_tags (u_body u)) ->
        exists r', reg_of_tag t = Some r' /\ reg_name r' = ("CTU_CAN_FD_" ++ t)%string).
Proof.
  split; [destruct r; vm_compute; reflexivity|]. split; [|split].
  - intros n H. unfold reg_of_name in H. apply find_some in H as [_ H].
    apply String.eqb_eq in H. symmetry. exact H.
  - exists (substring 11 (String.length (reg_name r) - 11) (reg_name r)).
    destruct r;
      (split; [vm_compute; reflexivity|]; split; [vm_compute; reflexivity|];
       first [ left; split; [vm_compute; reflexivity
                            | apply tag_used_sound; vm_compute; reflexivity]
             | right; split; [vm_compute; reflexivity
                             | apply tag_unused_sound; vm_compute; reflexivity] ]).
  - intros u t Hu Ht.
    pose proof (proj1 (forallb_forall _ _) tags_resolve_checked u Hu) as H. cbv beta in H.
    pose proof (proj1 (forallb_forall _ _) H t Ht) as H'. cbv beta in H'.
    destruct (reg_of_tag t) as [r'|] eqn:E; [|discriminate].
    exists r'. split; [reflexivity|].
    unfold reg_of_tag, reg_of_name in E. apply find_some in E as [_ E].
    apply String.eqb_eq, E.
Qed.

Lemma reg_of_name_inverse_ssp_cfg :
  exists r', reg_of_tag "SSP_CFG" = Some r'
             /\ reg_name r' = ("CTU_CAN_FD_" ++ "SSP_CFG")%string.
Proof.
  destruct (reg_of_name_inverse CTU_CAN_FD_SSP_CFG) as (_ & _ & _ & H).
  apply (H ctu_can_fd_trv_delay_ssp_cfg).
  - do 30 right. left. reflexivity.
  - right. left. reflexivity.
Defined.

(** X12: the enumerators are declared in strictly ascending order of offset,
    and every register lies in the first 0x518 bytes of the block. *)
Theorem offsets_ascending :
  ForallOrdPairs Z.lt (map reg_offset all_registers)
  /\ (forall r, 0 <= reg_offset r /\ reg_offset r + 4 <= 0x518).
Proof.
  split.
  - apply (ForallOrdPairs_impl (fun a b => (a <? b) = true)).
    + intros a b H. apply Z.ltb_lt, H.
    + apply pairwiseb_sound. vm_compute. reflexivity.
  - intros r. destruct r; simpl; lia.
Qed.

Lemma registers_covered_checked :
  forallb (fun r => match unions_of r with
                    | [] => is_txtb_data r
                    | [_] => negb (is_txtb_data r)
                    | _ => false
                    end) all_registers = true.
Proof. vm_compute. reflexivity. Qed.

Lemma is_txtb_data_sound r :
  is_txtb_data r = true ->
  exists n k, 1 <= n <= 4 /\ txtb_data n k = Some r.
Proof.
  unfold is_txtb_data. intros H.
  apply existsb_exists in H as (n & Hn & H).
  apply existsb_exists in H as (k & _ & H).
  destruct (txtb_data n k) as [r'|] eqn:E; [|discriminate].
  apply reg_eqb_eq in H. subst r'. exists n, k. split; [|exact E].
  simpl in Hn. lia.
Qed.

Lemma In_mem_reg r l : In r l -> mem_reg r l = true.
Proof.
  intros H. unfold mem_reg. apply existsb_exists. exists r.
  split; [exact H | apply reg_eqb_eq; reflexivity].
Qed.

(** Only the twelve [CTU_CAN_FD_TXTB<n>_DATA_<k>] enumerators have such a
    name, whatever [n] and [k]. *)
Lemma txtb_data_is_txtb n k r : txtb_data n k = Some r -> is_txtb_data r = true.
Proof.
  unfold txtb_data, reg_of_name. intros H. apply find_some in H as [_ H].
  apply String.eqb_eq in H.
  destruct r; simpl in H; try discriminate H; vm_compute; reflexivity.
Qed.

(** X13: every register is described by exactly one union, except the
    transmit buffer data words: those, and only those, no union describes. *)
Theorem registers_covered r :
  ((exists u, unions_of r = [u] /\ In u register_unions /\ In r (union_registers u)
              /\ forall u', In u' register_unions -> In r (union_registers u') -> u' = u)
   /\ forall n k, txtb_data n k <> Some r)
  \/ ((unions_of r = [] /\ forall u, In u register_unions -> ~ In r (union_registers u))
      /\ exists n k, 1 <= n <= 4 /\ txtb_data n k = Some r).
Proof.
  pose proof (proj1 (forallb_forall _ _) registers_covered_checked r
                    (all_registers_complete r)) as H. cbv beta in H.
  assert (Hall : forall u, In u register_unions -> In r (union_registers u) ->
                           In u (unions_of r)).
  { intros u Hu Hr. apply filter_In. split; [exact Hu | apply In_mem_reg, Hr]. }
  destruct (unions_of r) as [|u [|? ?]] eqn:E; [right | left | discriminate].
  - split; [|apply is_txtb_data_sound, H].
    split; [reflexivity|]. intros u Hu Hr. exact (Hall u Hu Hr).
  - split.
    + exists u. split; [reflexivity|].
      assert (Hin : In u (unions_of r)) by (rewrite E; left; reflexivity).
      apply filter_In in Hin as [Hu Hr].
      split; [exact Hu|]. split; [apply mem_reg_In, Hr|].
      intros u' Hu' Hr'. destruct (Hall u' Hu' Hr') as [<-|[]]. reflexivity.
    + intros n k Hnk. apply txtb_data_is_txtb in Hnk. rewrite Hnk in H. discriminate.
Qed.

(** X14: the data words of transmit buffer n (n from 1 to 4) occupy the 80
    bytes from n * 0x100; the region overlaps no union's word and no other
    buffer's region, and the registers in it are data words of buffer n. *)
Theorem txtb_region_separate n :
  1 <= n <= 4 ->
  exists lo hi,
    txtb_region n = Some (lo, hi) /\ lo = n * 0x100 /\ hi = lo + 20 * 4
    /\ (forall u b, In u register_unions -> union_base u = Some b ->
                    b + 4 <= lo \/ hi <= b)
    /\ (forall m lo' hi', 1 <= m <= 4 -> m <> n -> txtb_region m = Some (lo', hi') ->
                          hi <= lo' \/ hi' <= lo)
    /\ (forall r, lo <= reg_offset r < hi -> exists k, txtb_data n k = Some r).
Proof.
  intros Hn. exists (n * 0x100), (n * 0x100 + 20 * 4).
  assert (Hreg : forall m, 1 <= m <= 4 -> txtb_region m = Some (m * 0x100, m * 0x100 + 20 * 4)).
  { intros m Hm. assert (Hc : m = 1 \/ m = 2 \/ m = 3 \/ m = 4) by lia.
    destruct Hc as [->|[->|[->| ->]]]; vm_compute; reflexivity. }
  split; [apply Hreg, Hn|]. split; [reflexivity|]. split; [reflexivity|].
  split; [|split].
  - intros u b Hu Hb.
    assert (H : forallb (fun u => match union_base u with
                                  | Some b => (b + 4 <=? 0x100) || (0x500 <=? b)
                                  | None => false
                                  end) register_unions = true) by (vm_compute; reflexivity).
    pose proof (proj1 (forallb_forall _ _) H u Hu) as Hc. cbv beta in Hc.
    rewrite Hb in Hc. apply orb_true_iff in Hc as [Hc|Hc]; apply Z.leb_le in Hc; lia.
  - intros m lo' hi' Hm Hmn Hr. rewrite (Hreg m Hm) in Hr. injection Hr as <- <-. lia.
  - intros r Hr.
    assert (H : forallb (fun r => negb ((0x100 <=? reg_offset r) && (reg_offset r <? 0x500))
                                  || existsb (fun k =>
                                       match txtb_data (reg_offset r / 0x100) k with
                                       | Some r' => reg_eqb r r'
                                       | None => false
                                       end) [1; 2; 20]) all_registers = true)
      by (vm_compute; reflexivity).
    pose proof (proj1 (forallb_forall _ _) H r (all_registers_complete r)) as Hc.
    cbv beta in Hc. apply orb_true_iff in Hc as [Hc|Hc].
    + apply negb_true_iff, andb_false_iff in Hc.
      rewrite Z.leb_gt, Z.ltb_ge in Hc. lia.
    + apply existsb_exists in Hc as (k & _ & Hk).
      assert (E : reg_offset r / 0x100 = n) by (symmetry; apply Z.div_unique with (r := reg_offset r - n * 0x100); lia).
      rewrite E in Hk. destruct (txtb_data n k) as [r'|] eqn:Ek; [|discriminate].
      apply reg_eqb_eq in Hk. subst r'. exists k. exact Ek.
Qed.

Lemma txtb_region_separate_buffer_2 :
  exists lo hi,
    txtb_region 2 = Some (lo, hi) /\ lo = 2 * 0x100 /\ hi = lo + 20 * 4
    /\ (forall u b, In u register_unions -> union_base u = Some b ->
                    b + 4 <= lo \/ hi <= b)
    /\ (forall m lo' hi', 1 <= m <= 4 -> m <> 2 -> txtb_region m = Some (lo', hi') ->
                          hi <= lo' \/ hi' <= lo)
    /\ (forall r, lo <= reg_offset r < hi -> exists k, txtb_data 2 k = Some r).
Proof. apply (txtb_region_separate 2). lia. Defined.

Lemma register_lanes_checked :
  forallb (fun u =>
             (List.length (register_lanes u) =? List.length (struct_tags (u_body u)))%nat
             && forallb (fun g =>
                  forallb (fun s =>
                     existsb (slot_eqb s) (layout true u)
                     && (is_reserved (s_name s)
                         || ((fst (snd (fst g)) <=? s_lsb s)
                             && (s_lsb s + s_width s <=? snd (snd (fst g))))))
                    (snd g))
                  (register_lanes u))
          register_unions = true.
Proof. vm_compute. reflexivity. Qed.

(** X15: inside a union that packs several registers, the named members
    listed under a register's comment lie in that register's bytes of the
    word: from the register's byte offset up to the offset of the register
    listed next, or to the end of the word. *)
Theorem named_members_in_register_bytes u t lo hi ss s :
  In u register_unions ->
  In (t, (lo, hi), ss) (register_lanes u) -> In s ss ->
  is_reserved (s_name s) = false ->
  In s (layout true u) /\ lo <= s_lsb s /\ s_lsb s + s_width s <= hi.
Proof.
  intros Hu Hg Hs Hres.
  pose proof (proj1 (forallb_forall _ _) register_lanes_checked u Hu) as H.
  cbv beta in H. apply andb_true_iff in H as [_ H].
  pose proof (proj1 (forallb_forall _ _) H _ Hg) as H1. cbv beta in H1. simpl in H1.
  pose proof (proj1 (forallb_forall _ _) H1 s Hs) as H2. cbv beta in H2.
  apply andb_true_iff in H2 as [Hin Hr]. rewrite Hres in Hr. simpl in Hr.
  apply andb_true_iff in Hr as [Hlo Hhi].
  apply Z.leb_le in Hlo. apply Z.leb_le in Hhi.
  apply existsb_exists in Hin as (s' & Hin & He). apply slot_eqb_eq in He. subst s'.
  auto.
Qed.

Lemma named_members_in_register_bytes_alc_bit :
  In (Slot "alc_bit" 8 5) (layout true ctu_can_fd_err_capt_alc)
  /\ 8 <= s_lsb (Slot "alc_bit" 8 5)
  /\ s_lsb (Slot "alc_bit" 8 5) + s_width (Slot "alc_bit" 8 5) <= 32.
Proof.
  apply (named_members_in_register_bytes ctu_can_fd_err_capt_alc "ALC" 8 32
           [Slot "alc_bit" 8 5; Slot "alc_id_field" 13 3; Slot "reserved_31_16" 16 16]).
  - do 29 right. left. reflexivity.
  - right. left. reflexivity.
  - left. reflexivity.
  - reflexivity.
Defined.

(** X16: a union is called after the registers it describes:
    [ctu_can_fd_] followed by their tags in lower case, joined by [_]. *)
Theorem union_named_after_registers u :
  In u register_unions ->
  u_name u = ("ctu_can_fd_" ++ join "_" (map lower (struct_tags (u_body u))))%string.
Proof.
  intros Hu.
  assert (H : forallb (fun u => String.eqb (u_name u)
                         ("ctu_can_fd_" ++ join "_" (map lower (struct_tags (u_body u)))))
                      register_unions = true) by (vm_compute; reflexivity).
  apply String.eqb_eq. exact (proj1 (forallb_forall _ _) H u Hu).
Qed.

Lemma union_named_after_registers_ewl_erp_fault_state :
  u_name ctu_can_fd_ewl_erp_fault_state
  = ("ctu_can_fd_"
     ++ join "_" (map lower (struct_tags (u_body ctu_can_fd_ewl_erp_fault_state))))%string.
Proof.
  apply union_named_after_registers. do 9 right. left. reflexivity.
Defined.

(** X17: the unions leave no hole: every 32-bit word of the control block
    (offsets 0x0 to 0x93) and of the logger block (offsets 0x500 to 0x517) is
    the word of a union. *)
Theorem union_words_dense a :
  a mod 4 = 0 -> 0 <= a < 0x94 \/ 0x500 <= a < 0x518 ->
  exists u, In u register_unions /\ union_base u = Some a.
Proof.
  intros Ha Hr.
  assert (H : forallb (fun k => existsb (fun u => match union_base u with
                                                  | Some b => b =? 4 * Z.of_nat k
                                                  | None => false
                                                  end) register_unions)
                      (seq 0 37 ++ seq 320 6) = true) by (vm_compute; reflexivity).
  assert (Hk : a = 4 * Z.of_nat (Z.to_nat (a / 4))).
  { rewrite Z2Nat.id by (apply Z.div_pos; lia).
    rewrite (Z.div_mod a 4) at 1 by lia. lia. }
  assert (Hin : In (Z.to_nat (a / 4)) (seq 0 37 ++ seq 320 6)).
  { apply in_app_iff. rewrite !in_seq. lia. }
  pose proof (proj1 (forallb_forall _ _) H _ Hin) as Hc. cbv beta in Hc.
  apply existsb_exists in Hc as (u & Hu & Hb). exists u. split; [exact Hu|].
  destruct (union_base u) as [b|]; [|discriminate].
  apply Z.eqb_eq in Hb. congruence.
Qed.

Lemma union_words_dense_0x74 :
  exists u, In u register_unions /\ union_base u = Some 0x74.
Proof.
  apply union_words_dense; [reflexivity | lia].
Defined.
